(** * Verification of the futures simulator engine (server.py, client.py)

    A shallow embedding of the [Position] class and of the order-matching
    and liquidation methods of the [Server] class, of the loop of
    [Server.start] and of the [Client] class on the shared document,
    followed by the properties of the engine.

    Numbers.  Python's [Decimal] values are embedded as rationals [Q], and
    two decimals are compared with [Qeq] ([==]), as [Decimal.__eq__]
    compares values, not representations.  The classes are read twice.
    The modules [Position] and [Server] read the arithmetic as exact and a
    number of the JSON document (order quantity and price) as the rational
    it denotes; the properties proved on them are those of the control
    flow and of the formulas.  The module [Ctx] reads every operation as
    the context performs it, rounded to 28 significant digits, and the
    module [Float] reads the limit price that [check_orders] compares as
    the binary64 number the document yields; the properties that depend on
    the rounding or on the float are proved on these.

    Effects.  A method mutating [self] becomes a function returning the new
    object next to the returned value.  An exception ends the tick loop
    (nothing in server.py catches it), so a raising call yields [Raise] and
    no state. *)

From Stdlib Require Import QArith Qpower Qround Qabs Qminmax ZArith List String Ascii Bool Lia Lqa.
Import ListNotations.

Open Scope Q_scope.

(** ** Exceptions *)

Inductive exn : Set :=
| AssertionError
| DivisionByZero
| InvalidOperation
| ValueError.

Inductive result (A : Type) : Type :=
| Ok (a : A)
| Raise (e : exn).

Arguments Ok {A} a.
Arguments Raise {A} e.

Definition bind {A B : Type} (m : result A) (k : A -> result B) : result B :=
  match m with
  | Ok a => k a
  | Raise e => Raise e
  end.

Notation "x <- m ;; k" := (bind m (fun x => k))
  (at level 61, m at next level, right associativity).
Notation "' pat <- m ;; k" := (bind m (fun x => match x with pat => k end))
  (at level 61, pat pattern, m at next level, right associativity).

(** [assert b] *)
Definition assert (b : bool) : result unit :=
  if b then Ok tt else Raise AssertionError.

(** ** Decimal operations *)

(** [x < y] on decimals *)
Definition Qltb (x y : Q) : bool := negb (Qle_bool y x).

(** [a / b] on decimals: a zero divisor raises [DivisionByZero], or
    [InvalidOperation] for [0 / 0] (both traps are enabled in the default
    context). *)
Definition dec_div (a b : Q) : result Q :=
  if Qeq_bool b 0
  then Raise (if Qeq_bool a 0 then InvalidOperation else DivisionByZero)
  else Ok (a / b).

(** [x.quantize(Decimal("0.00...0"))] with [places] digits after the point,
    rounding half to even (the default rounding of the context). *)
Definition quantize (places : nat) (x : Q) : Q :=
  let scale := inject_Z (10 ^ Z.of_nat places) in
  let y := x * scale in
  let n := Qfloor y in
  let m := match (y - inject_Z n) ?= (1 # 2) with
           | Lt => n
           | Gt => (n + 1)%Z
           | Eq => if Z.even n then n else (n + 1)%Z
           end in
  inject_Z m / scale.

(** ** Strings: [str.upper] on the ASCII letters *)

Definition upper_ascii (c : ascii) : ascii :=
  let n := nat_of_ascii c in
  if ((97 <=? n) && (n <=? 122))%nat then ascii_of_nat (n - 32) else c.

Fixpoint upper (s : string) : string :=
  match s with
  | EmptyString => EmptyString
  | String c s' => String (upper_ascii c) (upper s')
  end.

(** ** class Position *)

Module Position.

Record t : Set := mk {
  side : Z;          (* 1 for Long -1 for Short 0 for None *)
  quantity : Q;
  entry_price : Q;
  leverage : Z
}.

(** [__init__] *)
Definition init : t := mk 0 0 0 1.

Definition with_side (self : t) (s : Z) : t :=
  mk s (quantity self) (entry_price self) (leverage self).

(** [set_leverage]: sets leverage if there is no open position; returns the
    leverage in force. *)
Definition set_leverage (self : t) (lev : Z) : Z * t :=
  let self' := if (side self =? 0)%Z
               then mk (side self) (quantity self) (entry_price self) lev
               else self in
  (leverage self', self').

(** [increase]: the returned value is always [True] and is left out. *)
Definition increase (self : t) (qty price : Q) : result t :=
  _ <- assert (Qltb 0 qty) ;;
  _ <- assert (Qltb 0 price) ;;
  e <- dec_div (quantity self * entry_price self + qty * price)
               (quantity self + qty) ;;
  Ok (mk (side self) (quantity self + qty) e (leverage self)).

(** [decrease]: returns [(initial, pnl)] and the new position. *)
Definition decrease (self : t) (qty price : Q) : result (Q * Q * t) :=
  _ <- assert (Qltb 0 qty && Qle_bool qty (quantity self)) ;;
  _ <- assert (Qltb 0 price) ;;
  let quantity' := quantity self - qty in
  let initial := qty * entry_price self in
  let pnl := inject_Z (side self) * qty * (price - entry_price self) in
  if Qeq_bool quantity' 0
  then Ok (initial, pnl, mk 0 quantity' 0 (leverage self))
  else Ok (initial, pnl,
           mk (side self) quantity' (entry_price self) (leverage self)).

Definition pnl (self : t) (price : Q) : Q :=
  inject_Z (side self) * quantity self * (price - entry_price self).

Definition margin (self : t) (price : Q) : result Q :=
  if negb (side self =? 0)%Z then
    d <- dec_div (quantity self * entry_price self)
                 (inject_Z (leverage self)) ;;
    m <- dec_div (100 * pnl self price) d ;;
    Ok (quantize 2 m)
  else Ok 0.

Definition value (self : t) (price fee_rate : Q) : result Q :=
  let fee := (quantity self * entry_price self + pnl self price) * fee_rate in
  v <- dec_div (quantity self * entry_price self)
               (inject_Z (leverage self)) ;;
  Ok (v + pnl self price - fee).

Definition liquidation_price (self : t) (fee_rate : Q) : result Q :=
  d <- dec_div (inject_Z (side self) * entry_price self)
               (inject_Z (leverage self)) ;;
  let liquidation_price := entry_price self - d in
  let fee := liquidation_price * quantity self * fee_rate in
  Ok (liquidation_price + inject_Z (side self) * fee).

End Position.

(** ** Orders: the dictionaries of the [orders] list of the document *)

Module Order.

Record t : Set := mk {
  side : string;
  quantity : Q;
  price : option Q;   (* [None] for a market order *)
  id : Z
}.

(** [==] on two order dictionaries *)
Definition eqb (a b : t) : bool :=
  String.eqb (side a) (side b)
  && Qeq_bool (quantity a) (quantity b)
  && match price a, price b with
     | None, None => true
     | Some x, Some y => Qeq_bool x y
     | _, _ => false
     end
  && (id a =? id b)%Z.

End Order.

(** [orders.remove(order)]: drops the first element equal to [order],
    [ValueError] when there is none. *)
Fixpoint list_remove (order : Order.t) (orders : list Order.t)
  : result (list Order.t) :=
  match orders with
  | [] => Raise ValueError
  | o :: rest =>
      if Order.eqb o order then Ok rest
      else rest' <- list_remove order rest ;; Ok (o :: rest')
  end.

(** ** class Server: the attributes and the document fields the engine uses *)

Module Server.

Record t : Type := mk {
  balance : Q;
  position : Position.t;
  fee_rate : Q;
  unit : Q;                   (* (usd) minimum order value *)
  db_leverage : Z;            (* document field "leverage" *)
  db_orders : list Order.t    (* document field "orders" *)
}.

(** [__init__]: the attributes after construction; [unit] is 1, the
    document starts with leverage 1 and no orders. *)
Definition init (balance : Z) (fee_rate : Q) : t :=
  mk (inject_Z balance) Position.init (quantize 4 fee_rate) 1 1 [].

(** [set_leverage]: reads the leverage of the document and sets it. *)
Definition set_leverage (self : t) : Z * Position.t :=
  Position.set_leverage (position self) (db_leverage self).

(** The test of one order in [check_orders]. *)
Definition eligible (price : Q) (order : Order.t) : bool :=
  match Order.price order with
  | None => true
  | Some order_price =>
      let order_side := upper (Order.side order) in
      (String.eqb order_side "BUY" && Qle_bool price order_price)
      || (String.eqb order_side "SELL" && Qle_bool order_price price)
  end.

(** [check_orders]: the loop over [orders], appending the orders to
    process in queue order. *)
Fixpoint check_orders (orders : list Order.t) (price : Q) : list Order.t :=
  match orders with
  | [] => []
  | order :: rest =>
      if eligible price order
      then order :: check_orders rest price
      else check_orders rest price
  end.

(** Lines 237-241 of [process_orders]: "adjusts price for limit orders".
    [order.get("price")] is falsy for [None] and for a zero price. *)
Definition adjust_price (order : Order.t) (price : Q) : Q :=
  let side := upper (Order.side order) in
  match Order.price order with
  | None => price
  | Some order_price =>
      if Qeq_bool order_price 0 then price
      else if (String.eqb side "BUY" && Qltb order_price price)
              || (String.eqb side "SELL" && Qltb price order_price)
           then order_price
           else price
  end.

(** [x in [0, 1]] and [x in [-1, 0]] *)
Definition in_0_1 (x : Z) : bool := ((x =? 0) || (x =? 1))%Z.
Definition in_m1_0 (x : Z) : bool := ((x =? -1) || (x =? 0))%Z.

Definition order_side_value (side : string) : Z :=
  if String.eqb side "BUY" then 1%Z else (-1)%Z.

(** The body of the [for] loop of [process_orders] for one order.  Every
    path of the body ends in [return]. *)
Definition process_order (self : t) (order : Order.t) (price : Q)
  : result (bool * t) :=
  let orders := db_orders self in
  let side := upper (Order.side order) in
  let quantity := Order.quantity order in
  let price := adjust_price order price in
  let '(leverage, pos) := set_leverage self in
  let lev := inject_Z leverage in
  notional <- dec_div (quantity * price) lev ;;
  if Qltb notional (unit self) then
    (* removes order if it's less than 1 dollar in value *)
    orders' <- list_remove order orders ;;
    Ok (false, mk (balance self) pos (fee_rate self) (unit self)
                  (db_leverage self) orders')
  else if (String.eqb side "BUY" && in_0_1 (Position.side pos))
          || (String.eqb side "SELL" && in_m1_0 (Position.side pos))
  then
    (* open or increase position *)
    let fee := quantity * price * fee_rate self in
    c <- dec_div (quantity * price) lev ;;
    let cost := c + fee in
    if Qle_bool cost (balance self) then
      let balance' := balance self - cost in
      let pos1 := Position.with_side pos (order_side_value side) in
      pos2 <- Position.increase pos1 quantity price ;;
      orders' <- list_remove order orders ;;
      Ok (true, mk balance' pos2 (fee_rate self) (unit self)
                   (db_leverage self) orders')
    else
      (* not enough balance *)
      orders' <- list_remove order orders ;;
      Ok (false, mk (balance self) pos (fee_rate self) (unit self)
                    (db_leverage self) orders')
  else if Qle_bool quantity (Position.quantity pos) then
    (* close or decrease position *)
    '(initial, pnl, pos1) <- Position.decrease pos quantity price ;;
    let fee := (initial + pnl) * fee_rate self in
    c <- dec_div initial lev ;;
    let balance' := balance self + (c + pnl - fee) in
    orders' <- list_remove order orders ;;
    Ok (true, mk balance' pos1 (fee_rate self) (unit self)
                 (db_leverage self) orders')
  else
    (* close and open reverse position *)
    let remaining := quantity - Position.quantity pos in
    let fee := remaining * price * fee_rate self in
    c <- dec_div (remaining * price) lev ;;
    let cost := c + fee in
    v <- Position.value pos price (fee_rate self) ;;
    let total_balance := balance self + v in
    if Qle_bool cost total_balance then
      (* close position and get returns *)
      '(initial, pnl, pos1) <-
         Position.decrease pos (Position.quantity pos) price ;;
      let fee := (initial + pnl) * fee_rate self in
      c' <- dec_div initial lev ;;
      let balance1 := balance self + (c' + pnl - fee) in
      (* starts new position with remaining quantity *)
      let balance2 := balance1 - cost in
      let pos2 := Position.with_side pos1 (order_side_value side) in
      pos3 <- Position.increase pos2 remaining price ;;
      orders' <- list_remove order orders ;;
      Ok (true, mk balance2 pos3 (fee_rate self) (unit self)
                   (db_leverage self) orders')
    else
      (* not enough balance *)
      orders' <- list_remove order orders ;;
      Ok (false, mk (balance self) pos (fee_rate self) (unit self)
                    (db_leverage self) orders').

(** [process_orders]: the loop returns inside its first iteration, so the
    first order to process is the only one handled in a tick; with nothing
    to process the method falls off its end and returns [None]. *)
Definition process_orders (self : t) (price : Q) : result (option bool * t) :=
  match check_orders (db_orders self) price with
  | [] => Ok (None, self)
  | order :: _ =>
      '(r, self') <- process_order self order price ;;
      Ok (Some r, self')
  end.

(** [liquidation_check] *)
Definition liquidation_check (self : t) (price : Q) : result (bool * t) :=
  let pos := position self in
  liquidation_price <- Position.liquidation_price pos (fee_rate self) ;;
  if ((Position.side pos =? 1)%Z && Qle_bool price liquidation_price)
     || ((Position.side pos =? -1)%Z && Qle_bool liquidation_price price)
  then
    '(_, _, pos') <- Position.decrease pos (Position.quantity pos) price ;;
    Ok (true, mk (balance self) pos' (fee_rate self) (unit self)
                 (db_leverage self) (db_orders self))
  else Ok (false, self).

End Server.

(** ** Predicates used by the statements *)

(** The invariant of the data model, with the ranges it relies on: side is
    one of 0, 1, -1, quantity and entry price are not negative, and
    [quantity == 0 <-> side == 0 <-> entry_price == 0]. *)
Definition pos_inv (p : Position.t) : Prop :=
  (Position.side p = 0 \/ Position.side p = 1 \/ Position.side p = -1)%Z
  /\ 0 <= Position.quantity p
  /\ 0 <= Position.entry_price p
  /\ (Position.quantity p == 0 <-> Position.side p = 0%Z)
  /\ (Position.side p = 0%Z <-> Position.entry_price p == 0).

Definition valid_call (c : Q * Q) : Prop := 0 < fst c /\ 0 < snd c.

(** Smallest and largest of the prices [p :: ps]. *)
Definition min_price (p : Q) (ps : list Q) : Q := fold_right Qmin p ps.
Definition max_price (p : Q) (ps : list Q) : Q := fold_right Qmax p ps.

(** Eligibility as the specification words it: a market order always; a
    limit Buy when the tick price is at most its limit; a limit Sell when
    the tick price is at least its limit. *)
Definition eligible_spec (price : Q) (order : Order.t) : Prop :=
  match Order.price order with
  | None => True
  | Some limit =>
      (upper (Order.side order) = "BUY"%string /\ price <= limit)
      \/ (upper (Order.side order) = "SELL"%string /\ limit <= price)
  end.

Definition ineligible (price : Q) (order : Order.t) : bool :=
  negb (Server.eligible price order).

(** An order as the client writes it: its side is BUY or SELL. *)
Definition valid_order (o : Order.t) : Prop :=
  upper (Order.side o) = "BUY"%string \/ upper (Order.side o) = "SELL"%string.

(** A state the tick loop can be in: the position invariant, leverages of
    at least 1, a positive [unit], and valid orders in the queue. *)
Definition server_wf (s : Server.t) : Prop :=
  pos_inv (Server.position s)
  /\ (1 <= Position.leverage (Server.position s))%Z
  /\ (1 <= Server.db_leverage s)%Z
  /\ 0 < Server.unit s
  /\ Forall valid_order (Server.db_orders s).

(** ** The rest of the loop and the client

    The document of the database is shared by the server and the client:
    its fields "leverage" and "orders" are in [Server.t]; the others follow.
    [float(x)] and [round(x, 2)] on floats are parameters of the model:
    a float is read as the rational it denotes. *)

(** The dictionary the client writes in the field "order". *)
Module Pending.

Record t : Set := mk {
  side : string;
  quantity : Q;
  price : option Q
}.

End Pending.

(** The dictionary [Position.to_dict] builds for an open position. *)
Module PositionDict.

Record t : Set := mk {
  side : string;
  quantity : Q;
  entry_price : Q;
  leverage : Z;
  liquidation_price : Q;
  pnl : Q;
  margin : Q
}.

End PositionDict.

Module Document.

Record t : Set := mk {
  price : Q;
  balance : Q;
  value : Q;
  order : option Pending.t;            (* [None] for the empty dictionary *)
  position : option PositionDict.t     (* [None] for the empty dictionary *)
}.

End Document.

(** The value [last_price] returns for a ticker message whose field "c"
    holds the decimal [c]. *)
Definition last_price (c : Q) : Q := quantize 1 c.

Module Engine.

Record t : Type := mk {
  server : Server.t;
  oid_counter : Z;       (* the next value of [itertools.count()] *)
  doc : Document.t
}.

Definition with_orders (s : Server.t) (orders : list Order.t) : Server.t :=
  Server.mk (Server.balance s) (Server.position s) (Server.fee_rate s)
    (Server.unit s) (Server.db_leverage s) orders.

Definition with_order (d : Document.t) (o : option Pending.t) : Document.t :=
  Document.mk (Document.price d) (Document.balance d) (Document.value d) o
    (Document.position d).

(** [Server.submit_order]: gets the user order from the database and
    pushes it to the orders list. *)
Definition submit_order (self : t) : bool * t :=
  match Document.order (doc self) with
  | Some o =>
      let order := Order.mk (Pending.side o) (Pending.quantity o)
                     (Pending.price o) (oid_counter self) in
      (true,
       mk (with_orders (server self) (Server.db_orders (server self) ++ [order]))
          (oid_counter self + 1)%Z
          (with_order (doc self) None))
  | None => (false, self)
  end.

Section Floats.

Variable to_float : Q -> Q.   (* [float(x)] *)
Variable round2 : Q -> Q.     (* [round(x, 2)] on a float *)

(** [Position.to_dict] *)
Definition to_dict (self : Position.t) (price fee_rate : Q)
  : result (option PositionDict.t) :=
  if negb (Position.side self =? 0)%Z then
    let side := if (Position.side self =? 1)%Z then "Long"%string
                else if (Position.side self =? -1)%Z then "Short"%string
                else "None"%string in
    lp <- Position.liquidation_price self fee_rate ;;
    m <- Position.margin self price ;;
    Ok (Some (PositionDict.mk side
                (to_float (Position.quantity self))
                (round2 (to_float (Position.entry_price self)))
                (Position.leverage self)
                (round2 (to_float lp))
                (round2 (to_float (Position.pnl self price)))
                (round2 (to_float m))))
  else Ok None.

(** [Server.__init__], with [price] the first value of [last_price]. *)
Definition init (balance : Z) (fee_rate price : Q) : t :=
  mk (Server.init balance fee_rate) 0
     (Document.mk (to_float price) (to_float (inject_Z balance))
        (to_float (inject_Z balance)) None None).

(** One iteration of the loop of [Server.start] on the price [price]. *)
Definition tick (self : t) (price : Q) : result t :=
  let self1 := snd (submit_order self) in
  '(_, srv1) <- Server.liquidation_check (server self1) price ;;
  '(_, srv2) <- Server.process_orders srv1 price ;;
  let pos := Server.position srv2 in
  v <- Position.value pos price (Server.fee_rate srv2) ;;
  pd <- to_dict pos price (Server.fee_rate srv2) ;;
  _ <- (if negb (Position.side pos =? 0)%Z
        then
          (* the log line: [liquidation_price], [pnl], [margin]; its
             formatting, [str(self.position)] and [round(x, 2)], is not
             modelled *)
          _ <- Position.liquidation_price pos (Server.fee_rate srv2) ;;
          _ <- Position.margin pos price ;;
          Ok tt
        else Ok tt) ;;
  Ok (mk srv2 (oid_counter self1)
        (Document.mk (to_float price) (to_float (Server.balance srv2))
           (to_float (Server.balance srv2 + v))
           (Document.order (doc self1)) pd)).

End Floats.

End Engine.

(** ** class Client (client.py), on the shared document *)

Module Client.

Inductive error : Set :=
| AssertionError
| KeyError.

(** [price > 0.0 if price else True]: [None] and a zero price are falsy. *)
Definition price_ok (price : option Q) : bool :=
  match price with
  | None => true
  | Some p => if Qeq_bool p 0 then true else Qltb 0 p
  end.

Definition is_side (side : string) : bool :=
  String.eqb side "BUY" || String.eqb side "SELL".

(** [set_leverage] *)
Definition set_leverage (e : Engine.t) (leverage : Z) : Engine.t :=
  let s := Engine.server e in
  Engine.mk (Server.mk (Server.balance s) (Server.position s)
               (Server.fee_rate s) (Server.unit s) leverage
               (Server.db_orders s))
            (Engine.oid_counter e) (Engine.doc e).

(** [submit_order] *)
Definition submit_order (e : Engine.t) (side : string) (quantity : Q)
           (price : option Q) : error + Engine.t :=
  if negb (is_side (upper side)) then inl AssertionError
  else if negb (Qltb 0 quantity) then inl AssertionError
  else if negb (price_ok price) then inl AssertionError
  else
    inr (Engine.mk (Engine.server e) (Engine.oid_counter e)
           (Engine.with_order (Engine.doc e)
              (Some (Pending.mk (upper side) quantity price)))).

(** The loop of [cancel_order] over [todo], a suffix of the list [orders]. *)
Fixpoint cancel_scan (todo orders : list Order.t) (id : Z)
  : result (bool * list Order.t) :=
  match todo with
  | [] => Ok (false, orders)
  | order :: rest =>
      if (Order.id order =? id)%Z
      then orders' <- list_remove order orders ;; Ok (true, orders')
      else cancel_scan rest orders id
  end.

(** [cancel_order] *)
Definition cancel_order (e : Engine.t) (id : Z) : result (bool * Engine.t) :=
  let orders := Server.db_orders (Engine.server e) in
  '(r, orders') <- cancel_scan orders orders id ;;
  if r
  then Ok (true, Engine.mk (Engine.with_orders (Engine.server e) orders')
                   (Engine.oid_counter e) (Engine.doc e))
  else Ok (false, e).

(** [close_position]: the subscript [position["side"]] raises [KeyError]
    on the empty dictionary. *)
Definition close_position (e : Engine.t) (price : option Q)
  : error + Engine.t :=
  if negb (price_ok price) then inl AssertionError
  else
    match Document.position (Engine.doc e) with
    | None => inl KeyError
    | Some position =>
        if negb (String.eqb (PositionDict.side position) "None") then
          let side := if String.eqb (PositionDict.side position) "Long"
                      then "SELL"%string else "BUY"%string in
          let quantity := PositionDict.quantity position in
          inr (Engine.mk (Engine.server e) (Engine.oid_counter e)
                 (Engine.with_order (Engine.doc e)
                    (Some (Pending.mk side quantity price))))
        else inr e
    end.

End Client.

(** ** The transitions of the system *)

(** What the server loop and the client can do to the shared state. *)
Inductive step (to_float round2 : Q -> Q) : Engine.t -> Engine.t -> Prop :=
| step_tick (e e' : Engine.t) (price : Q) :
    Engine.tick to_float round2 e price = Ok e' -> step to_float round2 e e'
| step_submit_order (e e' : Engine.t) (side : string) (quantity : Q)
                    (price : option Q) :
    Client.submit_order e side quantity price = inr e' ->
    step to_float round2 e e'
| step_set_leverage (e : Engine.t) (leverage : Z) :
    step to_float round2 e (Client.set_leverage e leverage)
| step_cancel_order (e e' : Engine.t) (id : Z) (r : bool) :
    Client.cancel_order e id = Ok (r, e') -> step to_float round2 e e'
| step_close_position (e e' : Engine.t) (price : option Q) :
    Client.close_position e price = inr e' -> step to_float round2 e e'.

Inductive reachable (to_float round2 : Q -> Q) : Engine.t -> Prop :=
| reachable_init (balance : Z) (fee_rate price : Q) :
    reachable to_float round2 (Engine.init to_float balance fee_rate price)
| reachable_step (e e' : Engine.t) :
    reachable to_float round2 e -> step to_float round2 e e' ->
    reachable to_float round2 e'.

(** The ids of the queue grow strictly and stay below the counter. *)
Fixpoint ids_increasing (bound : Z) (orders : list Order.t) : Prop :=
  match orders with
  | [] => True
  | o :: rest =>
      (Order.id o < bound)%Z
      /\ Forall (fun o' => (Order.id o < Order.id o')%Z) rest
      /\ ids_increasing bound rest
  end.

(** The integer nearest to [y], a tie going to the even one. *)
Definition round_half_even (y : Q) : Z :=
  let n := Qfloor y in
  match ((y - inject_Z n) ?= (1 # 2))%Q with
  | Lt => n
  | Gt => (n + 1)%Z
  | Eq => if Z.even n then n else (n + 1)%Z
  end.

(** ** The limit price of an order as a float

    The document is JSON: a limit price written with a fraction comes back
    from [self.db.all()] as a Python [float], a binary64 number.  The field
    [Order.price] holds the decimal the client wrote, which is also what
    [str] prints for the float (shortest representation that reads back)
    and so the value of [Decimal(str(order["price"]))] in line 238.  Line
    217 of [check_orders] takes [Decimal(order["price"])] instead: the
    exact value of the float, the decimal rounded to 53 significant bits,
    half to even.  Exponent bounds are not modelled. *)

Module Float.

Definition prec : Z := 53.

(** The exponent of the leading bit of a positive [x]. *)
Definition adjusted (x : Q) : Z :=
  let k0 := (Z.log2 (Qnum x) - Z.log2 (Zpos (Qden x)))%Z in
  if Qle_bool (2 ^ k0) x then k0 else (k0 - 1)%Z.

(** [float(x)]: the binary64 number nearest to [x], as a rational. *)
Definition of_decimal (x : Q) : Q :=
  let x := Qred x in
  if Qeq_bool x 0 then 0
  else
    let scale := 2 ^ (prec - 1 - adjusted (Qabs x)) in
    let m := round_half_even (Qabs x * scale) in
    Qred ((if Qle_bool 0 x then inject_Z m else - inject_Z m) / scale).

(** The test of one order in [check_orders], line 217 read as written:
    [order_price = Decimal(order["price"])]. *)
Definition eligible (price : Q) (order : Order.t) : bool :=
  match Order.price order with
  | None => true
  | Some limit =>
      let order_side := upper (Order.side order) in
      let order_price := of_decimal limit in
      (String.eqb order_side "BUY" && Qle_bool price order_price)
      || (String.eqb order_side "SELL" && Qle_bool order_price price)
  end.

(** [check_orders] *)
Fixpoint check_orders (orders : list Order.t) (price : Q) : list Order.t :=
  match orders with
  | [] => []
  | order :: rest =>
      if eligible price order
      then order :: check_orders rest price
      else check_orders rest price
  end.

End Float.

(** ** The arithmetic of the decimal context

    The exact reading above ignores the precision of the context.  In the
    code every [+], [-], [*] and [/] on a [Decimal] returns the exact
    result rounded to 28 significant digits, half to even (the default
    context; comparisons are exact, and so is the conversion of an [int]
    operand).  The module [Ctx] gives this reading of the operations and
    of the methods whose stated properties depend on it; its
    [process_orders] selects the orders with the check of [Float].  The
    bounds of the exponent (Emax = 999999) and the special values are not
    modelled. *)

Module Ctx.

Definition prec : Z := 28.

Fixpoint ilog10_fuel (fuel : nat) (n : Z) : Z :=
  match fuel with
  | O => 0%Z
  | S fuel' =>
      if (n <? 10)%Z then 0%Z else (1 + ilog10_fuel fuel' (n / 10))%Z
  end.

(** The number of decimal digits of [n > 0], less one. *)
Definition ilog10 (n : Z) : Z := ilog10_fuel (Z.to_nat (Z.log2 n)) n.

(** The adjusted exponent of [x > 0]: the [k] with
    [10^k <= x < 10^(k+1)]. *)
Definition adjusted (x : Q) : Z :=
  let k0 := (ilog10 (Qnum x) - ilog10 (Zpos (Qden x)))%Z in
  if Qle_bool (10 ^ k0) x then k0 else (k0 - 1)%Z.

(** The rounding of an exact result to [prec] significant digits. *)
Definition round (x : Q) : Q :=
  let x := Qred x in
  if Qeq_bool x 0 then 0
  else
    let scale := 10 ^ (prec - 1 - adjusted (Qabs x)) in
    let m := round_half_even (Qabs x * scale) in
    (if Qle_bool 0 x then inject_Z m else - inject_Z m) / scale.

Definition add (a b : Q) : Q := round (a + b).
Definition sub (a b : Q) : Q := round (a - b).
Definition mul (a b : Q) : Q := round (a * b).

Definition div (a b : Q) : result Q :=
  if Qeq_bool b 0
  then Raise (if Qeq_bool a 0 then InvalidOperation else DivisionByZero)
  else Ok (round (a / b)).

(** [Position.increase] *)
Definition increase (self : Position.t) (qty price : Q) : result Position.t :=
  _ <- assert (Qltb 0 qty) ;;
  _ <- assert (Qltb 0 price) ;;
  e <- div (add (mul (Position.quantity self) (Position.entry_price self))
                (mul qty price))
           (add (Position.quantity self) qty) ;;
  Ok (Position.mk (Position.side self) (add (Position.quantity self) qty) e
        (Position.leverage self)).

(** [Position.decrease] *)
Definition decrease (self : Position.t) (qty price : Q)
  : result (Q * Q * Position.t) :=
  _ <- assert (Qltb 0 qty && Qle_bool qty (Position.quantity self)) ;;
  _ <- assert (Qltb 0 price) ;;
  let quantity' := sub (Position.quantity self) qty in
  let initial := mul qty (Position.entry_price self) in
  let pnl := mul (mul (inject_Z (Position.side self)) qty)
                 (sub price (Position.entry_price self)) in
  if Qeq_bool quantity' 0
  then Ok (initial, pnl, Position.mk 0 quantity' 0 (Position.leverage self))
  else Ok (initial, pnl,
           Position.mk (Position.side self) quantity'
             (Position.entry_price self) (Position.leverage self)).

(** [Position.pnl] *)
Definition pnl (self : Position.t) (price : Q) : Q :=
  mul (mul (inject_Z (Position.side self)) (Position.quantity self))
      (sub price (Position.entry_price self)).

(** [Position.value] *)
Definition value (self : Position.t) (price fee_rate : Q) : result Q :=
  let fee := mul (add (mul (Position.quantity self) (Position.entry_price self))
                      (pnl self price))
                 fee_rate in
  v <- div (mul (Position.quantity self) (Position.entry_price self))
           (inject_Z (Position.leverage self)) ;;
  Ok (sub (add v (pnl self price)) fee).

(** The body of the loop of [Server.process_orders] for one order. *)
Definition process_order (self : Server.t) (order : Order.t) (price : Q)
  : result (bool * Server.t) :=
  let orders := Server.db_orders self in
  let side := upper (Order.side order) in
  let quantity := Order.quantity order in
  let price := Server.adjust_price order price in
  let '(leverage, pos) := Server.set_leverage self in
  let lev := inject_Z leverage in
  notional <- div (mul quantity price) lev ;;
  if Qltb notional (Server.unit self) then
    orders' <- list_remove order orders ;;
    Ok (false, Server.mk (Server.balance self) pos (Server.fee_rate self)
                 (Server.unit self) (Server.db_leverage self) orders')
  else if (String.eqb side "BUY" && Server.in_0_1 (Position.side pos))
          || (String.eqb side "SELL" && Server.in_m1_0 (Position.side pos))
  then
    let fee := mul (mul quantity price) (Server.fee_rate self) in
    c <- div (mul quantity price) lev ;;
    let cost := add c fee in
    if Qle_bool cost (Server.balance self) then
      let balance' := sub (Server.balance self) cost in
      let pos1 := Position.with_side pos (Server.order_side_value side) in
      pos2 <- increase pos1 quantity price ;;
      orders' <- list_remove order orders ;;
      Ok (true, Server.mk balance' pos2 (Server.fee_rate self)
                  (Server.unit self) (Server.db_leverage self) orders')
    else
      orders' <- list_remove order orders ;;
      Ok (false, Server.mk (Server.balance self) pos (Server.fee_rate self)
                   (Server.unit self) (Server.db_leverage self) orders')
  else if Qle_bool quantity (Position.quantity pos) then
    '(initial, pnl, pos1) <- decrease pos quantity price ;;
    let fee := mul (add initial pnl) (Server.fee_rate self) in
    c <- div initial lev ;;
    let balance' := add (Server.balance self) (sub (add c pnl) fee) in
    orders' <- list_remove order orders ;;
    Ok (true, Server.mk balance' pos1 (Server.fee_rate self)
                (Server.unit self) (Server.db_leverage self) orders')
  else
    let remaining := sub quantity (Position.quantity pos) in
    let fee := mul (mul remaining price) (Server.fee_rate self) in
    c <- div (mul remaining price) lev ;;
    let cost := add c fee in
    v <- value pos price (Server.fee_rate self) ;;
    let total_balance := add (Server.balance self) v in
    if Qle_bool cost total_balance then
      '(initial, pnl, pos1) <- decrease pos (Position.quantity pos) price ;;
      let fee := mul (add initial pnl) (Server.fee_rate self) in
      c' <- div initial lev ;;
      let balance1 := add (Server.balance self) (sub (add c' pnl) fee) in
      let balance2 := sub balance1 cost in
      let pos2 := Position.with_side pos1 (Server.order_side_value side) in
      pos3 <- increase pos2 remaining price ;;
      orders' <- list_remove order orders ;;
      Ok (true, Server.mk balance2 pos3 (Server.fee_rate self)
                  (Server.unit self) (Server.db_leverage self) orders')
    else
      orders' <- list_remove order orders ;;
      Ok (false, Server.mk (Server.balance self) pos (Server.fee_rate self)
                   (Server.unit self) (Server.db_leverage self) orders').

(** [Server.process_orders] *)
Definition process_orders (self : Server.t) (price : Q)
  : result (option bool * Server.t) :=
  match Float.check_orders (Server.db_orders self) price with
  | [] => Ok (None, self)
  | order :: _ =>
      '(r, self') <- process_order self order price ;;
      Ok (Some r, self')
  end.

(** A sequence of [increase(qty, price)] calls on one position. *)
Fixpoint increases (self : Position.t) (calls : list (Q * Q))
  : result Position.t :=
  match calls with
  | [] => Ok self
  | (qty, price) :: rest =>
      self' <- increase self qty price ;; increases self' rest
  end.

(** The relative error of one rounding: half a unit of the 28th digit. *)
Definition u : Q := 1 # 2000000000000000000000000000.

(** The factors by which one [increase] can move the entry price below
    and above a weighted average: four roundings in a row. *)
Definition shrink : Q := (1 - u) * (1 - u) * (1 - u) / (1 + u).
Definition grow : Q := (1 + u) * (1 + u) * (1 + u) / (1 - u).

Fixpoint pow (x : Q) (n : nat) : Q :=
  match n with
  | O => 1
  | S n' => x * pow x n'
  end.

(** [x] has at most 28 significant digits, [x = m * 10 ^ k] with
    [|m| < 10 ^ 28]: the context leaves it alone. *)
Definition exact (x : Q) : Prop :=
  exists m k : Z, (Z.abs m < 10 ^ prec)%Z /\ x == inject_Z m * 10 ^ k.

(** [Position.liquidation_price] *)
Definition liquidation_price (self : Position.t) (fee_rate : Q) : result Q :=
  d <- div (mul (inject_Z (Position.side self)) (Position.entry_price self))
           (inject_Z (Position.leverage self)) ;;
  let liquidation_price := sub (Position.entry_price self) d in
  let fee := mul (mul liquidation_price (Position.quantity self)) fee_rate in
  Ok (add liquidation_price (mul (inject_Z (Position.side self)) fee)).

(** [Server.liquidation_check] *)
Definition liquidation_check (self : Server.t) (price : Q)
  : result (bool * Server.t) :=
  let pos := Server.position self in
  liquidation_price <- liquidation_price pos (Server.fee_rate self) ;;
  if ((Position.side pos =? 1)%Z && Qle_bool price liquidation_price)
     || ((Position.side pos =? -1)%Z && Qle_bool liquidation_price price)
  then
    '(_, _, pos') <- decrease pos (Position.quantity pos) price ;;
    Ok (true, Server.mk (Server.balance self) pos' (Server.fee_rate self)
                (Server.unit self) (Server.db_leverage self)
                (Server.db_orders self))
  else Ok (false, self).

End Ctx.

(** * Basic facts *)

Lemma Qltb_iff (x y : Q) : Qltb x y = true <-> x < y.
Proof.
  unfold Qltb. rewrite negb_true_iff.
  destruct (Qle_bool y x) eqn:E.
  - apply Qle_bool_iff in E. split; [discriminate | intros H; lra].
  - split; [intros _ | reflexivity].
    destruct (Qlt_le_dec x y) as [H | H]; [exact H |].
    apply Qle_bool_iff in H. congruence.
Qed.

Lemma Qltb_false_iff (x y : Q) : Qltb x y = false <-> y <= x.
Proof.
  unfold Qltb. rewrite negb_false_iff. apply Qle_bool_iff.
Qed.

Lemma Qle_bool_false_iff (x y : Q) : Qle_bool x y = false <-> y < x.
Proof.
  rewrite <- Qltb_iff. unfold Qltb. rewrite negb_true_iff. reflexivity.
Qed.

Lemma Qeq_bool_false_iff (x y : Q) : Qeq_bool x y = false <-> ~ x == y.
Proof.
  split.
  - apply Qeq_bool_neq.
  - intros H. destruct (Qeq_bool x y) eqn:E; [| reflexivity].
    apply Qeq_bool_iff in E. contradiction.
Qed.

Lemma dec_div_ok (a b : Q) : ~ b == 0 -> dec_div a b = Ok (a / b).
Proof.
  intros H. unfold dec_div.
  apply Qeq_bool_false_iff in H. rewrite H. reflexivity.
Qed.

Lemma dec_div_inv (a b r : Q) : dec_div a b = Ok r -> ~ b == 0 /\ r = a / b.
Proof.
  unfold dec_div. destruct (Qeq_bool b 0) eqn:E; [discriminate |].
  intros [= <-]. split; [now apply Qeq_bool_false_iff | reflexivity].
Qed.

Lemma assert_ok (b : bool) : b = true -> assert b = Ok tt.
Proof. intros ->. reflexivity. Qed.

Lemma assert_inv (b : bool) (u : Datatypes.unit) : assert b = Ok u -> b = true.
Proof. destruct b; [reflexivity | discriminate]. Qed.

Lemma inject_Z_nonzero (z : Z) : z <> 0%Z -> ~ inject_Z z == 0.
Proof.
  intros H E. apply H. unfold Qeq in E. simpl in E. lia.
Qed.

(** * Position.decrease *)

Lemma decrease_ok (p : Position.t) (qty price : Q) :
  0 < qty -> qty <= Position.quantity p -> 0 < price ->
  Position.decrease p qty price =
    Ok (qty * Position.entry_price p,
        inject_Z (Position.side p) * qty * (price - Position.entry_price p),
        if Qeq_bool (Position.quantity p - qty) 0
        then Position.mk 0 (Position.quantity p - qty) 0 (Position.leverage p)
        else Position.mk (Position.side p) (Position.quantity p - qty)
                         (Position.entry_price p) (Position.leverage p)).
Proof.
  intros Hq Hle Hp. unfold Position.decrease.
  rewrite assert_ok.
  2:{ apply andb_true_iff. split; [now apply Qltb_iff | now apply Qle_bool_iff]. }
  rewrite assert_ok by now apply Qltb_iff.
  cbn [bind]. destruct (Qeq_bool (Position.quantity p - qty) 0); reflexivity.
Qed.

Lemma decrease_inv (p p' : Position.t) (qty price i pn : Q) :
  Position.decrease p qty price = Ok (i, pn, p') ->
  0 < qty /\ qty <= Position.quantity p /\ 0 < price
  /\ i = qty * Position.entry_price p
  /\ pn = inject_Z (Position.side p) * qty * (price - Position.entry_price p)
  /\ p' = (if Qeq_bool (Position.quantity p - qty) 0
           then Position.mk 0 (Position.quantity p - qty) 0 (Position.leverage p)
           else Position.mk (Position.side p) (Position.quantity p - qty)
                            (Position.entry_price p) (Position.leverage p)).
Proof.
  unfold Position.decrease. intros H.
  destruct (assert (Qltb 0 qty && Qle_bool qty (Position.quantity p))) eqn:A1;
    [| discriminate].
  apply assert_inv in A1. apply andb_true_iff in A1. destruct A1 as [A1 A2].
  apply Qltb_iff in A1. apply Qle_bool_iff in A2. cbn [bind] in H.
  destruct (assert (Qltb 0 price)) eqn:A3; [| discriminate].
  apply assert_inv in A3. apply Qltb_iff in A3. cbn [bind] in H.
  destruct (Qeq_bool (Position.quantity p - qty) 0); inversion H; subst; auto 10.
Qed.

(** * Position.value and the credit of a full close *)

(** [pos_inv] on a position given by numerals *)
Ltac concrete_pos_inv :=
  unfold pos_inv; cbn;
  split; [lia |]; split; [lra |]; split; [lra |];
  split; split; intros ?; first [lia | lra | exfalso; lia | exfalso; lra].

Lemma pos_inv_open_quantity (p : Position.t) :
  pos_inv p -> Position.side p <> 0%Z -> 0 < Position.quantity p.
Proof.
  intros (_ & Hq & _ & Hqs & _) Hs.
  destruct (Qlt_le_dec 0 (Position.quantity p)) as [H | H]; [exact H |].
  exfalso. apply Hs, Hqs. lra.
Qed.

Lemma list_remove_head (o : Order.t) (rest : list Order.t) :
  list_remove o (o :: rest) = Ok rest.
Proof.
  cbn. unfold Order.eqb.
  rewrite String.eqb_refl, Qeq_bool_refl, Z.eqb_refl.
  destruct (Order.price o); [rewrite Qeq_bool_refl |]; reflexivity.
Qed.

Lemma set_leverage_inv (s : Server.t) (lev : Z) (pos : Position.t) :
  Server.set_leverage s = (lev, pos) ->
  lev = Position.leverage pos
  /\ Position.side pos = Position.side (Server.position s)
  /\ Position.quantity pos = Position.quantity (Server.position s)
  /\ Position.entry_price pos = Position.entry_price (Server.position s)
  /\ Position.leverage pos =
       if (Position.side (Server.position s) =? 0)%Z
       then Server.db_leverage s
       else Position.leverage (Server.position s).
Proof.
  unfold Server.set_leverage, Position.set_leverage.
  intros [= <- <-].
  destruct (Position.side (Server.position s) =? 0)%Z; cbn; auto.
Qed.

(** The close-and-reverse branch of [process_orders] when the funds
    suffice: the exact result. *)
Lemma process_order_reverse_ok (s : Server.t) (o : Order.t) (price0 v : Q)
      (orders' : list Order.t) :
  let lev := fst (Server.set_leverage s) in
  let pos := snd (Server.set_leverage s) in
  let price := Server.adjust_price o price0 in
  let side := upper (Order.side o) in
  let remaining := Order.quantity o - Position.quantity pos in
  let cost := remaining * price / inject_Z lev
              + remaining * price * Server.fee_rate s in
  lev <> 0%Z ->
  Server.unit s <= Order.quantity o * price / inject_Z lev ->
  (String.eqb side "BUY" && Server.in_0_1 (Position.side pos))
  || (String.eqb side "SELL" && Server.in_m1_0 (Position.side pos)) = false ->
  Position.quantity pos < Order.quantity o ->
  0 < Position.quantity pos -> 0 < price ->
  Position.value pos price (Server.fee_rate s) = Ok v ->
  cost <= Server.balance s + v ->
  list_remove o (Server.db_orders s) = Ok orders' ->
  Server.process_order s o price0 =
    Ok (true,
        Server.mk (Server.balance s + v - cost)
          (Position.mk (Server.order_side_value side)
             (Position.quantity pos - Position.quantity pos + remaining)
             (((Position.quantity pos - Position.quantity pos) * 0
               + remaining * price)
              / (Position.quantity pos - Position.quantity pos + remaining))
             (Position.leverage pos))
          (Server.fee_rate s) (Server.unit s) (Server.db_leverage s) orders').
Proof.
  intros lev pos price side remaining cost Hlev Hn Hdir Hlt Hq Hp Hv Hc Hr.
  unfold Server.process_order.
  destruct (Server.set_leverage s) as [lev' pos'] eqn:E.
  cbn [fst snd] in lev, pos. subst lev pos.
  fold price side.
  apply set_leverage_inv in E. destruct E as (-> & _).
  assert (Hl : ~ inject_Z (Position.leverage pos') == 0)
    by now apply inject_Z_nonzero.
  rewrite !dec_div_ok by exact Hl. cbn [bind].
  rewrite (proj2 (Qltb_false_iff _ _) Hn), Hdir.
  rewrite (proj2 (Qle_bool_false_iff _ _) Hlt).
  fold remaining. rewrite Hv. cbn [bind].
  fold cost. rewrite (proj2 (Qle_bool_iff _ _) Hc).
  rewrite (decrease_ok pos' _ price Hq (Qle_refl _) Hp).
  assert (Hz : Qeq_bool (Position.quantity pos' - Position.quantity pos') 0 = true)
    by (apply Qeq_bool_iff; lra).
  rewrite Hz. cbn [bind]. rewrite dec_div_ok by exact Hl. cbn [bind].
  unfold Position.increase, Position.with_side. cbn [Position.quantity
    Position.entry_price Position.side Position.leverage].
  assert (Hrem : 0 < remaining) by (unfold remaining; lra).
  rewrite !assert_ok by now apply Qltb_iff. cbn [bind].
  rewrite dec_div_ok by lra. cbn [bind]. rewrite Hr. cbn [bind].
  unfold Position.value in Hv. rewrite dec_div_ok in Hv by exact Hl.
  cbn [bind] in Hv. injection Hv as <-. unfold Position.pnl. reflexivity.
Qed.


Lemma order_eqb_refl (o : Order.t) : Order.eqb o o = true.
Proof.
  unfold Order.eqb.
  rewrite String.eqb_refl, Qeq_bool_refl, Z.eqb_refl.
  destruct (Order.price o); [rewrite Qeq_bool_refl |]; reflexivity.
Qed.

Lemma list_remove_In (o : Order.t) (orders : list Order.t) :
  In o orders -> exists orders', list_remove o orders = Ok orders'.
Proof.
  induction orders as [| a rest IH]; [intros [] |].
  intros [-> | H]; cbn.
  - rewrite order_eqb_refl. eauto.
  - destruct (Order.eqb a o); [eauto |].
    destruct (IH H) as [r ->]. cbn. eauto.
Qed.

Lemma check_orders_filter (orders : list Order.t) (price : Q) :
  Server.check_orders orders price = filter (Server.eligible price) orders.
Proof.
  induction orders as [| a rest IH]; cbn; [reflexivity |].
  rewrite IH. reflexivity.
Qed.

Lemma check_orders_In (orders : list Order.t) (price : Q) (o : Order.t) :
  In o (Server.check_orders orders price)
  <-> In o orders /\ Server.eligible price o = true.
Proof. rewrite check_orders_filter. apply filter_In. Qed.



(** * Position.increase: the weighted average *)

Lemma increase_ok (p : Position.t) (qty price : Q) :
  0 < qty -> 0 < price -> 0 <= Position.quantity p ->
  Position.increase p qty price =
    Ok (Position.mk (Position.side p) (Position.quantity p + qty)
          ((Position.quantity p * Position.entry_price p + qty * price)
           / (Position.quantity p + qty))
          (Position.leverage p)).
Proof.
  intros Hq Hp Hn. unfold Position.increase.
  rewrite !assert_ok by now apply Qltb_iff. cbn [bind].
  rewrite dec_div_ok by lra. reflexivity.
Qed.

Lemma increase_inv (p p' : Position.t) (qty price : Q) :
  Position.increase p qty price = Ok p' ->
  0 < qty /\ 0 < price /\ ~ Position.quantity p + qty == 0
  /\ p' = Position.mk (Position.side p) (Position.quantity p + qty)
            ((Position.quantity p * Position.entry_price p + qty * price)
             / (Position.quantity p + qty))
            (Position.leverage p).
Proof.
  unfold Position.increase. intros H.
  destruct (assert (Qltb 0 qty)) eqn:A1; [| discriminate].
  apply assert_inv, Qltb_iff in A1. cbn [bind] in H.
  destruct (assert (Qltb 0 price)) eqn:A2; [| discriminate].
  apply assert_inv, Qltb_iff in A2. cbn [bind] in H.
  destruct (dec_div _ _) eqn:D in H; [| discriminate].
  apply dec_div_inv in D. destruct D as [D ->]. cbn [bind] in H.
  injection H as <-. auto.
Qed.

Lemma min_price_le (p : Q) (ps : list Q) :
  min_price p ps <= p /\ Forall (fun x => min_price p ps <= x) ps.
Proof.
  induction ps as [| a ps [IH1 IH2]]; cbn.
  - split; [lra | constructor].
  - split.
    + eapply Qle_trans; [apply Q.le_min_r | exact IH1].
    + constructor; [apply Q.le_min_l |].
      eapply Forall_impl; [| exact IH2]. cbn. intros x Hx.
      eapply Qle_trans; [apply Q.le_min_r | exact Hx].
Qed.

Lemma max_price_ge (p : Q) (ps : list Q) :
  p <= max_price p ps /\ Forall (fun x => x <= max_price p ps) ps.
Proof.
  induction ps as [| a ps [IH1 IH2]]; cbn.
  - split; [lra | constructor].
  - split.
    + eapply Qle_trans; [exact IH1 | apply Q.le_max_r].
    + constructor; [apply Q.le_max_l |].
      eapply Forall_impl; [| exact IH2]. cbn. intros x Hx.
      eapply Qle_trans; [exact Hx | apply Q.le_max_r].
Qed.

(** * Margin at the liquidation price *)







(** * Server.liquidation_check *)

Lemma liquidation_trigger_iff (side : Z) (price lp : Q) :
  ((side =? 1)%Z && Qle_bool price lp) || ((side =? -1)%Z && Qle_bool lp price)
  = true
  <-> (side = 1%Z /\ price <= lp) \/ (side = (-1)%Z /\ lp <= price).
Proof.
  rewrite orb_true_iff, !andb_true_iff, !Z.eqb_eq, !Qle_bool_iff. reflexivity.
Qed.

Lemma liquidation_price_ok (p : Position.t) (f : Q) :
  Position.leverage p <> 0%Z ->
  exists lp, Position.liquidation_price p f = Ok lp.
Proof.
  intros H. unfold Position.liquidation_price.
  rewrite dec_div_ok by now apply inject_Z_nonzero. cbn [bind]. eauto.
Qed.

(** * Eligibility and the queue *)

(** Case analysis of a successful run of a method body: every bind, test
    and pair pattern met in [H] is split, the raising cases closed. *)
Ltac split_run H :=
  repeat match type of H with
         | context [bind ?m _] =>
             let E := fresh "E" in
             destruct m eqn:E; cbn [bind] in H; [| discriminate H]
         | context [if ?b then _ else _] =>
             let B := fresh "B" in destruct b eqn:B
         | context [match ?x with (_, _) => _ end] => destruct x
         end.

Lemma process_order_frame (s s' : Server.t) (o : Order.t) (price : Q) (r : bool) :
  Server.process_order s o price = Ok (r, s') ->
  list_remove o (Server.db_orders s) = Ok (Server.db_orders s')
  /\ Server.fee_rate s' = Server.fee_rate s
  /\ Server.unit s' = Server.unit s
  /\ Server.db_leverage s' = Server.db_leverage s.
Proof.
  unfold Server.process_order. intros H.
  destruct (Server.set_leverage s) as [lev pos].
  split_run H; injection H as <- <-; cbn; auto.
Qed.

Lemma eligible_eqb (price : Q) (a o : Order.t) :
  Order.eqb a o = true -> Server.eligible price a = Server.eligible price o.
Proof.
  unfold Order.eqb, Server.eligible. intros H.
  apply andb_true_iff in H. destruct H as [H _].
  apply andb_true_iff in H. destruct H as [H Hp].
  apply andb_true_iff in H. destruct H as [Hs _].
  apply String.eqb_eq in Hs. rewrite Hs.
  destruct (Order.price a) as [x |], (Order.price o) as [y |];
    try discriminate Hp; [| reflexivity].
  apply Qeq_bool_iff in Hp. rewrite Hp. reflexivity.
Qed.

Lemma list_remove_keeps_ineligible (price : Q) (o : Order.t)
      (orders orders' : list Order.t) :
  Server.eligible price o = true ->
  list_remove o orders = Ok orders' ->
  filter (ineligible price) orders' = filter (ineligible price) orders.
Proof.
  intros He. revert orders'.
  induction orders as [| a rest IH]; intros orders' H; cbn in H;
    [discriminate H |].
  destruct (Order.eqb a o) eqn:E.
  - injection H as <-. cbn. unfold ineligible at 2.
    rewrite (eligible_eqb price a o E), He. reflexivity.
  - destruct (list_remove o rest) as [rest' |] eqn:R; [| discriminate H].
    cbn in H. injection H as <-. cbn. rewrite (IH rest' eq_refl). reflexivity.
Qed.

Lemma check_orders_head (orders rest : list Order.t) (price : Q) (o : Order.t) :
  Server.check_orders orders price = o :: rest ->
  In o orders /\ Server.eligible price o = true.
Proof.
  intros H. apply check_orders_In. rewrite H. now left.
Qed.

(** * Execution price *)

(** The test of lines 238-240 is the strict negation of the eligibility
    test of [check_orders]: for an order that is processed the price is
    never adjusted. *)
Lemma adjust_price_eligible (price : Q) (o : Order.t) :
  Server.eligible price o = true -> Server.adjust_price o price = price.
Proof.
  unfold Server.eligible, Server.adjust_price.
  destruct (Order.price o) as [limit |]; [| reflexivity].
  intros H. destruct (Qeq_bool limit 0); [reflexivity |].
  apply orb_true_iff in H.
  destruct (String.eqb (upper (Order.side o)) "BUY") eqn:EB;
    destruct (String.eqb (upper (Order.side o)) "SELL") eqn:ES;
    cbn [andb orb] in H |- *;
    destruct H as [H | H]; try discriminate H;
    try (apply String.eqb_eq in EB; apply String.eqb_eq in ES; congruence);
    apply Qle_bool_iff in H.
  - rewrite (proj2 (Qltb_false_iff _ _) H). reflexivity.
  - rewrite (proj2 (Qltb_false_iff _ _) H). reflexivity.
Qed.

(** C1 (the code on the example of the specification).  A Buy limit order at 100,
    eligible at tick price 95, is executed at 95: the position is opened
    with entry price 95 and the balance is debited 95, not 100. *)
Theorem buy_limit_100_at_tick_95_fills_at_95 :
  let o := Order.mk "BUY" 1 (Some 100) 0 in
  let s := Server.mk 1000 Position.init 0 1 1 [o] in
  Server.check_orders (Server.db_orders s) 95 = [o]
  /\ Server.adjust_price o 95 = 95
  /\ exists s',
       Server.process_orders s 95 = Ok (Some true, s')
       /\ Position.side (Server.position s') = 1%Z
       /\ Position.quantity (Server.position s') == 1
       /\ Position.entry_price (Server.position s') == 95
       /\ Server.balance s' == 905
       /\ Server.db_orders s' = [].
Proof.
  cbn zeta. split; [reflexivity |]. split; [reflexivity |].
  eexists. split; [vm_compute; reflexivity |].
  cbn. repeat split.
Qed.

(** * The paths of [process_orders] *)

(** Common opening of the path lemmas: [set_leverage] is named. *)
Ltac open_path lev pos lev' pos' E :=
  unfold Server.process_order;
  destruct (Server.set_leverage _) as [lev' pos'] eqn:E;
  cbn [fst snd] in lev, pos; subst lev pos;
  apply set_leverage_inv in E; destruct E as (-> & E).

Lemma process_order_reject_notional (s : Server.t) (o : Order.t) (price0 : Q)
      (orders' : list Order.t) :
  let lev := fst (Server.set_leverage s) in
  let pos := snd (Server.set_leverage s) in
  lev <> 0%Z ->
  Order.quantity o * Server.adjust_price o price0 / inject_Z lev
    < Server.unit s ->
  list_remove o (Server.db_orders s) = Ok orders' ->
  Server.process_order s o price0 =
    Ok (false, Server.mk (Server.balance s) pos (Server.fee_rate s)
                 (Server.unit s) (Server.db_leverage s) orders').
Proof.
  intros lev pos Hlev Hn Hr. open_path lev pos lev' pos' E.
  rewrite dec_div_ok by now apply inject_Z_nonzero. cbn [bind].
  rewrite (proj2 (Qltb_iff _ _) Hn), Hr. reflexivity.
Qed.

Lemma process_order_open_reject (s : Server.t) (o : Order.t) (price0 : Q)
      (orders' : list Order.t) :
  let lev := fst (Server.set_leverage s) in
  let pos := snd (Server.set_leverage s) in
  let price := Server.adjust_price o price0 in
  let side := upper (Order.side o) in
  lev <> 0%Z ->
  Server.unit s <= Order.quantity o * price / inject_Z lev ->
  (String.eqb side "BUY" && Server.in_0_1 (Position.side pos))
  || (String.eqb side "SELL" && Server.in_m1_0 (Position.side pos)) = true ->
  Server.balance s
    < Order.quantity o * price / inject_Z lev
      + Order.quantity o * price * Server.fee_rate s ->
  list_remove o (Server.db_orders s) = Ok orders' ->
  Server.process_order s o price0 =
    Ok (false, Server.mk (Server.balance s) pos (Server.fee_rate s)
                 (Server.unit s) (Server.db_leverage s) orders').
Proof.
  intros lev pos price side Hlev Hn Hd Hb Hr. open_path lev pos lev' pos' E.
  fold price side.
  rewrite !dec_div_ok by now apply inject_Z_nonzero. cbn [bind].
  rewrite (proj2 (Qltb_false_iff _ _) Hn), Hd.
  rewrite (proj2 (Qle_bool_false_iff _ _) Hb), Hr. reflexivity.
Qed.

Lemma process_order_open_ok (s : Server.t) (o : Order.t) (price0 : Q)
      (orders' : list Order.t) :
  let lev := fst (Server.set_leverage s) in
  let pos := snd (Server.set_leverage s) in
  let price := Server.adjust_price o price0 in
  let side := upper (Order.side o) in
  let cost := Order.quantity o * price / inject_Z lev
              + Order.quantity o * price * Server.fee_rate s in
  lev <> 0%Z ->
  Server.unit s <= Order.quantity o * price / inject_Z lev ->
  (String.eqb side "BUY" && Server.in_0_1 (Position.side pos))
  || (String.eqb side "SELL" && Server.in_m1_0 (Position.side pos)) = true ->
  cost <= Server.balance s ->
  0 < Order.quantity o -> 0 < price -> 0 <= Position.quantity pos ->
  list_remove o (Server.db_orders s) = Ok orders' ->
  Server.process_order s o price0 =
    Ok (true,
        Server.mk (Server.balance s - cost)
          (Position.mk (Server.order_side_value side)
             (Position.quantity pos + Order.quantity o)
             ((Position.quantity pos * Position.entry_price pos
               + Order.quantity o * price)
              / (Position.quantity pos + Order.quantity o))
             (Position.leverage pos))
          (Server.fee_rate s) (Server.unit s) (Server.db_leverage s) orders').
Proof.
  intros lev pos price side cost Hlev Hn Hd Hb Hq Hp Hpq Hr.
  open_path lev pos lev' pos' E.
  fold price side.
  rewrite !dec_div_ok by now apply inject_Z_nonzero. cbn [bind].
  rewrite (proj2 (Qltb_false_iff _ _) Hn), Hd.
  fold cost. rewrite (proj2 (Qle_bool_iff _ _) Hb).
  rewrite increase_ok by assumption. cbn [bind]. rewrite Hr. reflexivity.
Qed.

Lemma process_order_decrease_ok (s : Server.t) (o : Order.t) (price0 : Q)
      (orders' : list Order.t) :
  let lev := fst (Server.set_leverage s) in
  let pos := snd (Server.set_leverage s) in
  let price := Server.adjust_price o price0 in
  let side := upper (Order.side o) in
  let qty := Order.quantity o in
  let initial := qty * Position.entry_price pos in
  let pnl := inject_Z (Position.side pos) * qty
             * (price - Position.entry_price pos) in
  lev <> 0%Z ->
  Server.unit s <= qty * price / inject_Z lev ->
  (String.eqb side "BUY" && Server.in_0_1 (Position.side pos))
  || (String.eqb side "SELL" && Server.in_m1_0 (Position.side pos)) = false ->
  qty <= Position.quantity pos ->
  0 < qty -> 0 < price ->
  list_remove o (Server.db_orders s) = Ok orders' ->
  Server.process_order s o price0 =
    Ok (true,
        Server.mk
          (Server.balance s
           + (initial / inject_Z lev + pnl
              - (initial + pnl) * Server.fee_rate s))
          (if Qeq_bool (Position.quantity pos - qty) 0
           then Position.mk 0 (Position.quantity pos - qty) 0
                  (Position.leverage pos)
           else Position.mk (Position.side pos) (Position.quantity pos - qty)
                  (Position.entry_price pos) (Position.leverage pos))
          (Server.fee_rate s) (Server.unit s) (Server.db_leverage s) orders').
Proof.
  intros lev pos price side qty initial pnl Hlev Hn Hd Hle Hq Hp Hr.
  open_path lev pos lev' pos' E.
  fold price side qty.
  rewrite !dec_div_ok by now apply inject_Z_nonzero. cbn [bind].
  rewrite (proj2 (Qltb_false_iff _ _) Hn), Hd.
  rewrite (proj2 (Qle_bool_iff _ _) Hle).
  rewrite (decrease_ok pos' qty price Hq Hle Hp). cbn [bind].
  rewrite dec_div_ok by now apply inject_Z_nonzero. cbn [bind].
  rewrite Hr. reflexivity.
Qed.

Lemma process_order_reverse_reject (s : Server.t) (o : Order.t) (price0 v : Q)
      (orders' : list Order.t) :
  let lev := fst (Server.set_leverage s) in
  let pos := snd (Server.set_leverage s) in
  let price := Server.adjust_price o price0 in
  let side := upper (Order.side o) in
  let remaining := Order.quantity o - Position.quantity pos in
  lev <> 0%Z ->
  Server.unit s <= Order.quantity o * price / inject_Z lev ->
  (String.eqb side "BUY" && Server.in_0_1 (Position.side pos))
  || (String.eqb side "SELL" && Server.in_m1_0 (Position.side pos)) = false ->
  Position.quantity pos < Order.quantity o ->
  Position.value pos price (Server.fee_rate s) = Ok v ->
  Server.balance s + v
    < remaining * price / inject_Z lev
      + remaining * price * Server.fee_rate s ->
  list_remove o (Server.db_orders s) = Ok orders' ->
  Server.process_order s o price0 =
    Ok (false, Server.mk (Server.balance s) pos (Server.fee_rate s)
                 (Server.unit s) (Server.db_leverage s) orders').
Proof.
  intros lev pos price side remaining Hlev Hn Hd Hlt Hv Hb Hr.
  open_path lev pos lev' pos' E.
  fold price side.
  rewrite !dec_div_ok by now apply inject_Z_nonzero. cbn [bind].
  rewrite (proj2 (Qltb_false_iff _ _) Hn), Hd.
  rewrite (proj2 (Qle_bool_false_iff _ _) Hlt).
  fold remaining. rewrite Hv. cbn [bind].
  rewrite (proj2 (Qle_bool_false_iff _ _) Hb), Hr. reflexivity.
Qed.

(** * Rejected orders *)




(** * The position invariant *)

Lemma pos_inv_init : pos_inv Position.init.
Proof. concrete_pos_inv. Qed.

Lemma pos_inv_fields (p p' : Position.t) :
  Position.side p' = Position.side p ->
  Position.quantity p' = Position.quantity p ->
  Position.entry_price p' = Position.entry_price p ->
  pos_inv p -> pos_inv p'.
Proof. unfold pos_inv. intros -> -> ->. exact (fun H => H). Qed.

Lemma increase_pos_inv (p p' : Position.t) (qty price : Q) :
  Position.increase p qty price = Ok p' ->
  (Position.side p = 1 \/ Position.side p = -1)%Z ->
  0 <= Position.quantity p -> 0 <= Position.entry_price p ->
  pos_inv p'.
Proof.
  intros H Hs Hq He. apply increase_inv in H.
  destruct H as (Hqty & Hp & _ & ->). unfold pos_inv. cbn.
  assert (Hsum : 0 < Position.quantity p + qty) by lra.
  assert (Hent : 0 < (Position.quantity p * Position.entry_price p + qty * price)
                     / (Position.quantity p + qty)).
  { apply Qlt_shift_div_l; [exact Hsum |]. nra. }
  split; [lia |]. split; [lra |]. split; [lra |].
  split; split; intros H; exfalso; first [lia | lra].
Qed.

Lemma decrease_pos_inv (p p' : Position.t) (qty price i pn : Q) :
  Position.decrease p qty price = Ok (i, pn, p') -> pos_inv p -> pos_inv p'.
Proof.
  intros H Hinv. apply decrease_inv in H.
  destruct H as (Hq & Hle & _ & _ & _ & ->).
  destruct Hinv as (Hs & Hq0 & He0 & Hqs & Hse).
  destruct (Qeq_bool (Position.quantity p - qty) 0) eqn:E; unfold pos_inv; cbn.
  - apply Qeq_bool_iff in E.
    split; [lia |]. split; [lra |]. split; [lra |].
    split; split; intros _; first [reflexivity | exact E].
  - apply Qeq_bool_false_iff in E.
    assert (Hpos : 0 < Position.quantity p) by lra.
    assert (Hside : Position.side p <> 0%Z) by (intros C; apply Hqs in C; lra).
    split; [exact Hs |]. split; [lra |]. split; [exact He0 |].
    split; [| exact Hse].
    split; intros H; [contradiction | exfalso; exact (Hside H)].
Qed.

Lemma order_side_value_cases (side : string) :
  (Server.order_side_value side = 1 \/ Server.order_side_value side = -1)%Z.
Proof. unfold Server.order_side_value. destruct (String.eqb side "BUY"); auto. Qed.

Lemma process_order_pos_inv (s s' : Server.t) (o : Order.t) (price : Q)
      (r : bool) :
  pos_inv (Server.position s) ->
  Server.process_order s o price = Ok (r, s') ->
  pos_inv (Server.position s').
Proof.
  intros Hinv H. unfold Server.process_order in H.
  destruct (Server.set_leverage s) as [lev pos] eqn:L.
  apply set_leverage_inv in L. destruct L as (_ & L1 & L2 & L3 & _).
  pose proof (pos_inv_fields _ pos L1 L2 L3 Hinv) as Hpos.
  split_run H; injection H as <- <-; cbn [Server.position]; try exact Hpos.
  - eapply increase_pos_inv; [eassumption | apply order_side_value_cases | |];
      apply Hpos.
  - eapply decrease_pos_inv; eassumption.
  - match goal with
    | D : Position.decrease _ _ _ = Ok (_, _, ?p1) |- _ =>
        pose proof (decrease_pos_inv _ _ _ _ _ _ D Hpos) as H1
    end.
    eapply increase_pos_inv; [eassumption | apply order_side_value_cases | |];
      apply H1.
Qed.

Lemma liquidation_check_pos_inv (s s' : Server.t) (price : Q) (r : bool) :
  pos_inv (Server.position s) ->
  Server.liquidation_check s price = Ok (r, s') ->
  pos_inv (Server.position s').
Proof.
  intros Hinv H. unfold Server.liquidation_check in H.
  split_run H; injection H as <- <-; cbn [Server.position]; [| exact Hinv].
  eapply decrease_pos_inv; eassumption.
Qed.

Lemma increase_leverage (p p' : Position.t) (qty price : Q) :
  Position.increase p qty price = Ok p' ->
  Position.leverage p' = Position.leverage p.
Proof. intros H. apply increase_inv in H. destruct H as (_ & _ & _ & ->). reflexivity. Qed.

Lemma decrease_leverage (p p' : Position.t) (qty price i pn : Q) :
  Position.decrease p qty price = Ok (i, pn, p') ->
  Position.leverage p' = Position.leverage p.
Proof.
  intros H. apply decrease_inv in H. destruct H as (_ & _ & _ & _ & _ & ->).
  destruct (Qeq_bool _ _); reflexivity.
Qed.

Lemma process_order_leverage (s s' : Server.t) (o : Order.t) (price : Q)
      (r : bool) :
  Server.process_order s o price = Ok (r, s') ->
  Position.leverage (Server.position s') = fst (Server.set_leverage s).
Proof.
  intros H. unfold Server.process_order in H.
  destruct (Server.set_leverage s) as [lev pos] eqn:L.
  apply set_leverage_inv in L. destruct L as (-> & _).
  split_run H; injection H as <- <-; cbn [Server.position fst];
    repeat match goal with
           | D : Position.decrease _ _ _ = Ok _ |- _ =>
               apply decrease_leverage in D
           | I : Position.increase _ _ _ = Ok _ |- _ =>
               apply increase_leverage in I; cbn in I
           end;
    congruence.
Qed.

Lemma list_remove_Forall (P : Order.t -> Prop) (o : Order.t)
      (orders orders' : list Order.t) :
  list_remove o orders = Ok orders' -> Forall P orders -> Forall P orders'.
Proof.
  revert orders'. induction orders as [| a l IH]; intros orders' H HF;
    cbn in H; [discriminate H |].
  inversion HF as [| ? ? Ha Hl]; subst.
  destruct (Order.eqb a o).
  - injection H as <-. exact Hl.
  - destruct (list_remove o l) as [l' |]; [| discriminate H].
    cbn in H. injection H as <-. constructor; [exact Ha | now apply IH].
Qed.

(** Under the conditions of the tick loop the body of [process_orders]
    returns: none of its assertions or divisions raises. *)
Lemma process_order_returns (s : Server.t) (o : Order.t) (rest : list Order.t)
      (price : Q) :
  server_wf s -> 0 < price ->
  Server.check_orders (Server.db_orders s) price = o :: rest ->
  exists r s', Server.process_order s o price = Ok (r, s').
Proof.
  intros (Hinv & Hl & Hdl & Hu & Hv) Hp Hc.
  pose proof (check_orders_head _ _ _ _ Hc) as [Hin He].
  destruct (list_remove_In _ _ Hin) as [orders' Hr].
  rewrite Forall_forall in Hv. pose proof (Hv o Hin) as Hside.
  pose proof (adjust_price_eligible price o He) as A.
  pose proof (set_leverage_inv s _ _ (surjective_pairing _))
    as (L0 & L1 & L2 & L3 & L4).
  set (lev := fst (Server.set_leverage s)) in *.
  set (pos := snd (Server.set_leverage s)) in *.
  pose proof (pos_inv_fields _ pos L1 L2 L3 Hinv) as Hpos.
  assert (Hlev : (1 <= lev)%Z).
  { rewrite L0, L4. destruct (Position.side (Server.position s) =? 0)%Z; lia. }
  assert (Lnz : lev <> 0%Z) by lia.
  assert (HL : 0 < inject_Z lev).
  { change 0 with (inject_Z 0). rewrite <- Zlt_Qlt. lia. }
  destruct (Qlt_le_dec (Order.quantity o * Server.adjust_price o price
                        / inject_Z lev) (Server.unit s)) as [Hn | Hn].
  { do 2 eexists. now apply process_order_reject_notional with (orders' := orders'). }
  assert (Hq : 0 < Order.quantity o).
  { destruct (Qlt_le_dec 0 (Order.quantity o)) as [H | H]; [exact H |].
    exfalso. rewrite A in Hn.
    assert (Hneg : Order.quantity o * price / inject_Z lev <= 0).
    { apply Qle_shift_div_r; [exact HL |]. nra. }
    lra. }
  assert (Hp' : 0 < Server.adjust_price o price) by (rewrite A; exact Hp).
  destruct ((String.eqb (upper (Order.side o)) "BUY"
             && Server.in_0_1 (Position.side pos))
            || (String.eqb (upper (Order.side o)) "SELL"
                && Server.in_m1_0 (Position.side pos))) eqn:D.
  - destruct (Qlt_le_dec (Server.balance s)
                (Order.quantity o * Server.adjust_price o price / inject_Z lev
                 + Order.quantity o * Server.adjust_price o price
                   * Server.fee_rate s)) as [Hb | Hb].
    + do 2 eexists.
      now apply process_order_open_reject with (orders' := orders').
    + do 2 eexists.
      apply process_order_open_ok with (orders' := orders'); try assumption.
      apply Hpos.
  - destruct (Qlt_le_dec (Position.quantity pos) (Order.quantity o)) as [Hlt | Hle].
    + assert (Hopen : Position.side pos <> 0%Z).
      { intros C. rewrite C in D. destruct Hside as [Hs | Hs];
          rewrite Hs in D; discriminate D. }
      pose proof (pos_inv_open_quantity pos Hpos Hopen) as Hpq.
      destruct (Position.value pos (Server.adjust_price o price)
                  (Server.fee_rate s)) as [v |] eqn:Hval.
      2:{ unfold Position.value in Hval. rewrite <- L0 in Hval.
          rewrite dec_div_ok in Hval by lra. discriminate Hval. }
      destruct (Qlt_le_dec (Server.balance s + v)
                  ((Order.quantity o - Position.quantity pos)
                   * Server.adjust_price o price / inject_Z lev
                   + (Order.quantity o - Position.quantity pos)
                     * Server.adjust_price o price * Server.fee_rate s))
        as [Hb | Hb].
      * do 2 eexists.
        now apply process_order_reverse_reject with (orders' := orders') (v := v).
      * do 2 eexists.
        now apply process_order_reverse_ok with (orders' := orders') (v := v).
    + do 2 eexists.
      now apply process_order_decrease_ok with (orders' := orders').
Qed.

Lemma process_orders_wf (s : Server.t) (price : Q) :
  server_wf s -> 0 < price ->
  exists r s', Server.process_orders s price = Ok (r, s') /\ server_wf s'.
Proof.
  intros Hwf Hp. unfold Server.process_orders.
  destruct (Server.check_orders (Server.db_orders s) price) as [| o rest] eqn:C.
  { exists None, s. split; [reflexivity | exact Hwf]. }
  destruct (process_order_returns s o rest price Hwf Hp C) as (r & s' & H).
  rewrite H. cbn [bind]. exists (Some r), s'. split; [reflexivity |].
  destruct Hwf as (Hinv & Hl & Hdl & Hu & Hv).
  pose proof (process_order_frame _ _ _ _ _ H) as (F1 & _ & F3 & F4).
  pose proof (process_order_leverage _ _ _ _ _ H) as F5.
  pose proof (set_leverage_inv s _ _ (surjective_pairing _)) as (L0 & _ & _ & _ & L4).
  unfold server_wf. rewrite F3, F4, F5, L0, L4.
  split; [eapply process_order_pos_inv; eassumption |].
  split; [destruct (Position.side (Server.position s) =? 0)%Z; lia |].
  split; [exact Hdl |]. split; [exact Hu |].
  eapply list_remove_Forall; eassumption.
Qed.

Lemma liquidation_check_wf (s : Server.t) (price : Q) :
  server_wf s -> 0 < price ->
  exists r s', Server.liquidation_check s price = Ok (r, s') /\ server_wf s'.
Proof.
  intros Hwf Hp.
  assert (Hret : exists r s', Server.liquidation_check s price = Ok (r, s')).
  { destruct Hwf as (Hinv & Hl & _).
    unfold Server.liquidation_check.
    destruct (liquidation_price_ok (Server.position s) (Server.fee_rate s))
      as [lp ->]; [lia |].
    cbn [bind].
    destruct (((Position.side (Server.position s) =? 1)%Z && Qle_bool price lp)
              || ((Position.side (Server.position s) =? -1)%Z
                  && Qle_bool lp price)) eqn:B; [| eauto].
    apply liquidation_trigger_iff in B.
    assert (Hs : Position.side (Server.position s) <> 0%Z)
      by (destruct B as [[-> _] | [-> _]]; lia).
    pose proof (pos_inv_open_quantity _ Hinv Hs) as Hq.
    rewrite (decrease_ok _ _ price Hq (Qle_refl _) Hp). cbn [bind]. eauto. }
  destruct Hret as (r & s' & H). exists r, s'. split; [exact H |].
  pose proof (liquidation_check_pos_inv _ _ _ _ (proj1 Hwf) H) as Hinv'.
  destruct Hwf as (Hinv & Hl & Hdl & Hu & Hv).
  unfold Server.liquidation_check in H.
  split_run H; injection H as <- <-; unfold server_wf; cbn; auto.
  cbn in Hinv'.
  match goal with
  | D : Position.decrease _ _ _ = Ok _ |- _ =>
      apply decrease_leverage in D; rewrite D
  end.
  auto.
Qed.

(** C2.  The position invariant
    [quantity == 0 <-> side == 0 <-> entry_price == 0] holds of the
    initial position and is kept by every run of [process_orders] (open or
    increase, decrease or close, close-and-reverse, rejection) and of
    [liquidation_check]; from a state of the tick loop and a positive tick
    price both methods return, in a state of the tick loop again. *)
Theorem engine_preserves_position_invariant :
  pos_inv Position.init
  /\ (forall (balance : Z) (fee_rate : Q),
        server_wf (Server.init balance fee_rate))
  /\ (forall (s s' : Server.t) (price : Q) (r : option bool),
        pos_inv (Server.position s) ->
        Server.process_orders s price = Ok (r, s') ->
        pos_inv (Server.position s'))
  /\ (forall (s s' : Server.t) (price : Q) (r : bool),
        pos_inv (Server.position s) ->
        Server.liquidation_check s price = Ok (r, s') ->
        pos_inv (Server.position s'))
  /\ (forall (s : Server.t) (price : Q),
        server_wf s -> 0 < price ->
        exists r s',
          Server.process_orders s price = Ok (r, s') /\ server_wf s')
  /\ (forall (s : Server.t) (price : Q),
        server_wf s -> 0 < price ->
        exists r s',
          Server.liquidation_check s price = Ok (r, s') /\ server_wf s').
Proof.
  split; [exact pos_inv_init |].
  split.
  { intros balance fee_rate. unfold server_wf, Server.init. cbn.
    split; [exact pos_inv_init |]. repeat split; try lia; constructor. }
  split.
  { intros s s' price r Hinv. unfold Server.process_orders.
    destruct (Server.check_orders (Server.db_orders s) price) as [| o rest].
    - intros [= <- <-]. exact Hinv.
    - destruct (Server.process_order s o price) as [[b s1] |] eqn:P;
        cbn [bind]; [| discriminate].
      intros [= <- <-]. eapply process_order_pos_inv; eassumption. }
  split; [exact liquidation_check_pos_inv |].
  split; [exact process_orders_wf | exact liquidation_check_wf].
Qed.

(** * Instances on concrete states *)

Lemma engine_preserves_position_invariant_witness :
  exists r s',
    Server.process_orders
      (Server.mk 1000 (Position.mk 1 1 100 2) (1 # 1000) 1 2
         [Order.mk "sell" 3 None 0]) 110
    = Ok (r, s')
    /\ server_wf s'.
Proof.
  apply (proj1 (proj2 (proj2 (proj2 (proj2
           engine_preserves_position_invariant))))).
  - unfold server_wf. cbn. split; [concrete_pos_inv |].
    split; [lia |]. split; [lia |]. split; [lra |].
    constructor; [right; reflexivity | constructor].
  - lra.
Defined.


(** * The queue: ids, submission and cancellation *)

Lemma order_eqb_id (a o : Order.t) :
  Order.eqb a o = true -> Order.id a = Order.id o.
Proof.
  unfold Order.eqb. intros H. apply andb_true_iff in H.
  destruct H as [_ H]. now apply Z.eqb_eq.
Qed.

Lemma list_remove_split (o : Order.t) (before after : list Order.t) :
  Forall (fun a => Order.id a <> Order.id o) before ->
  list_remove o (before ++ o :: after) = Ok (before ++ after).
Proof.
  induction before as [| a l IH]; intros H; cbn.
  - rewrite order_eqb_refl. reflexivity.
  - inversion H as [| ? ? Ha Hl]; subst.
    destruct (Order.eqb a o) eqn:E.
    + apply order_eqb_id in E. contradiction.
    + rewrite (IH Hl). reflexivity.
Qed.

Lemma list_remove_sublist (o : Order.t) (orders orders' : list Order.t) :
  list_remove o orders = Ok orders' ->
  exists before a after,
    orders = before ++ a :: after /\ orders' = before ++ after.
Proof.
  revert orders'. induction orders as [| x l IH]; intros orders' H; cbn in H;
    [discriminate H |].
  destruct (Order.eqb x o).
  - injection H as <-. exists [], x, l. auto.
  - destruct (list_remove o l) as [l' |]; [| discriminate H].
    cbn in H. injection H as <-.
    destruct (IH l' eq_refl) as (b & a & c & -> & ->).
    exists (x :: b), a, c. auto.
Qed.

Lemma ids_increasing_bound (b b' : Z) (orders : list Order.t) :
  (b <= b')%Z -> ids_increasing b orders -> ids_increasing b' orders.
Proof.
  intros Hb. induction orders as [| o l IH]; cbn; [auto |].
  intros (H1 & H2 & H3). split; [lia |]. split; [exact H2 | auto].
Qed.


Lemma ids_increasing_drop (b : Z) (before after : list Order.t) (a : Order.t) :
  ids_increasing b (before ++ a :: after) -> ids_increasing b (before ++ after).
Proof.
  induction before as [| x l IH]; cbn.
  - intros (_ & _ & H). exact H.
  - intros (H1 & H2 & H3). split; [exact H1 |]. split; [| auto].
    rewrite Forall_app in H2 |- *. destruct H2 as [H2 H2'].
    inversion H2'; subst. auto.
Qed.

Lemma ids_increasing_push (b : Z) (orders : list Order.t) (o : Order.t) :
  Order.id o = b -> ids_increasing b orders ->
  ids_increasing (b + 1) (orders ++ [o]).
Proof.
  intros Ho. induction orders as [| x l IH]; cbn.
  - intros _. repeat split; [lia | constructor].
  - intros (H1 & H2 & H3). split; [lia |]. split; [| auto].
    rewrite Forall_app. split; [exact H2 |].
    constructor; [lia | constructor].
Qed.

Lemma ids_increasing_NoDup (b : Z) (orders : list Order.t) :
  ids_increasing b orders -> NoDup (map Order.id orders).
Proof.
  induction orders as [| o l IH]; cbn; [constructor |].
  intros (_ & H2 & H3). constructor; [| auto].
  rewrite in_map_iff. intros (x & Hx & Hin).
  rewrite Forall_forall in H2. specialize (H2 x Hin). lia.
Qed.

Lemma ids_increasing_remove (b : Z) (o : Order.t) (orders orders' : list Order.t) :
  list_remove o orders = Ok orders' ->
  ids_increasing b orders -> ids_increasing b orders'.
Proof.
  intros H. apply list_remove_sublist in H.
  destruct H as (before & a & after & -> & ->). apply ids_increasing_drop.
Qed.

Lemma cancel_scan_spec (id : Z) (todo pre : list Order.t) :
  Forall (fun a => Order.id a <> id) pre ->
  (Forall (fun a => Order.id a <> id) todo ->
   Client.cancel_scan todo (pre ++ todo) id = Ok (false, pre ++ todo))
  /\ (forall before o after,
        todo = before ++ o :: after -> Order.id o = id ->
        Forall (fun a => Order.id a <> id) before ->
        Client.cancel_scan todo (pre ++ todo) id
        = Ok (true, pre ++ before ++ after)).
Proof.
  revert pre. induction todo as [| x l IH]; intros pre Hpre.
  - split; [reflexivity |]. intros [| ? ?] ? ? H; discriminate H.
  - assert (Hstep : Order.id x <> id ->
                    Client.cancel_scan (x :: l) (pre ++ x :: l) id
                    = Client.cancel_scan l ((pre ++ [x]) ++ l) id).
    { intros Hx. cbn. apply Z.eqb_neq in Hx. rewrite Hx.
      rewrite <- app_assoc. reflexivity. }
    split.
    + intros H. inversion H as [| ? ? Hx Hl]; subst.
      rewrite (Hstep Hx).
      destruct (IH (pre ++ [x])) as [IH1 _].
      { rewrite Forall_app. split; [exact Hpre | constructor; [exact Hx | constructor]]. }
      rewrite (IH1 Hl), <- app_assoc. reflexivity.
    + intros before o after Heq Ho Hb.
      destruct before as [| y before]; cbn in Heq; injection Heq as -> ->.
      * cbn [Client.cancel_scan app].
        rewrite (proj2 (Z.eqb_eq _ _) Ho).
        rewrite list_remove_split; [reflexivity |].
        eapply Forall_impl; [| exact Hpre]. cbn. intros a Ha. congruence.
      * inversion Hb as [| ? ? Hy Hb']; subst.
        rewrite (Hstep Hy).
        destruct (IH (pre ++ [y])) as [_ IH2].
        { rewrite Forall_app. split; [exact Hpre | constructor; [exact Hy | constructor]]. }
        rewrite (IH2 before o after eq_refl eq_refl Hb'), <- app_assoc.
        reflexivity.
Qed.

(** X2.  [cancel_order(id)] never raises.  With no order of that id in the
    queue it returns [False] and changes nothing; otherwise it returns
    [True] and takes out the first order of that id, keeping the others in
    their order; when the ids of the queue are increasing (as they are in
    every reachable state) no order of that id is left. *)
Theorem cancel_order_spec (e : Engine.t) (id : Z) :
  let orders := Server.db_orders (Engine.server e) in
  (Forall (fun a => Order.id a <> id) orders ->
   Client.cancel_order e id = Ok (false, e))
  /\ (forall before o after,
        orders = before ++ o :: after -> Order.id o = id ->
        Forall (fun a => Order.id a <> id) before ->
        Client.cancel_order e id
        = Ok (true, Engine.mk (Engine.with_orders (Engine.server e)
                                 (before ++ after))
                      (Engine.oid_counter e) (Engine.doc e))
          /\ (ids_increasing (Engine.oid_counter e) orders ->
              Forall (fun a => Order.id a <> id) (before ++ after))).
Proof.
  intros orders.
  destruct (cancel_scan_spec id orders [] (Forall_nil _)) as [H1 H2].
  cbn [app] in H1, H2. split.
  - intros H. unfold Client.cancel_order. fold orders.
    rewrite (H1 H). reflexivity.
  - intros before o after Heq Ho Hb. split.
    + unfold Client.cancel_order. fold orders.
      rewrite (H2 before o after Heq Ho Hb). reflexivity.
    + intros Hinc. rewrite Heq in Hinc.
      apply ids_increasing_NoDup in Hinc.
      rewrite map_app in Hinc. cbn [map] in Hinc.
      apply NoDup_remove_2 in Hinc.
      rewrite Forall_forall. intros a Ha Hid. apply Hinc.
      rewrite <- map_app, in_map_iff. exists a. split; [congruence | exact Ha].
Qed.

(** * Reachable states *)

Lemma liquidation_check_frame (s s' : Server.t) (price : Q) (r : bool) :
  Server.liquidation_check s price = Ok (r, s') ->
  Server.balance s' = Server.balance s
  /\ Server.fee_rate s' = Server.fee_rate s
  /\ Server.unit s' = Server.unit s
  /\ Server.db_leverage s' = Server.db_leverage s
  /\ Server.db_orders s' = Server.db_orders s.
Proof.
  unfold Server.liquidation_check. intros H.
  split_run H; injection H as <- <-; cbn; auto.
Qed.

Lemma process_orders_pos_inv (s s' : Server.t) (price : Q) (r : option bool) :
  pos_inv (Server.position s) ->
  Server.process_orders s price = Ok (r, s') ->
  pos_inv (Server.position s').
Proof.
  intros Hinv. unfold Server.process_orders.
  destruct (Server.check_orders (Server.db_orders s) price) as [| o rest].
  - intros [= <- <-]. exact Hinv.
  - destruct (Server.process_order s o price) as [[b s1] |] eqn:P;
      cbn [bind]; [| discriminate].
    intros [= <- <-]. eapply process_order_pos_inv; eassumption.
Qed.

Lemma process_orders_ids (s s' : Server.t) (price : Q) (r : option bool)
      (b : Z) :
  Server.process_orders s price = Ok (r, s') ->
  ids_increasing b (Server.db_orders s) ->
  ids_increasing b (Server.db_orders s').
Proof.
  unfold Server.process_orders.
  destruct (Server.check_orders (Server.db_orders s) price) as [| o rest].
  - intros [= <- <-]. auto.
  - destruct (Server.process_order s o price) as [[x s1] |] eqn:P;
      cbn [bind]; [| discriminate].
    intros [= <- <-]. apply process_order_frame in P. destruct P as [P _].
    eapply ids_increasing_remove; eassumption.
Qed.

Lemma submit_order_inv (e : Engine.t) :
  let e' := snd (Engine.submit_order e) in
  Server.position (Engine.server e') = Server.position (Engine.server e)
  /\ (ids_increasing (Engine.oid_counter e) (Server.db_orders (Engine.server e)) ->
      ids_increasing (Engine.oid_counter e')
        (Server.db_orders (Engine.server e'))).
Proof.
  unfold Engine.submit_order.
  destruct (Document.order (Engine.doc e)) as [o |]; cbn; [| auto].
  split; [reflexivity |]. intros H. now apply ids_increasing_push.
Qed.

Lemma tick_inv (to_float round2 : Q -> Q) (e e' : Engine.t) (price : Q) :
  Engine.tick to_float round2 e price = Ok e' ->
  pos_inv (Server.position (Engine.server e)) ->
  ids_increasing (Engine.oid_counter e) (Server.db_orders (Engine.server e)) ->
  pos_inv (Server.position (Engine.server e'))
  /\ ids_increasing (Engine.oid_counter e') (Server.db_orders (Engine.server e')).
Proof.
  unfold Engine.tick. intros H Hp Hi.
  destruct (submit_order_inv e) as [S1 S2]. specialize (S2 Hi).
  set (e1 := snd (Engine.submit_order e)) in *.
  rewrite <- S1 in Hp.
  destruct (Server.liquidation_check (Engine.server e1) price)
    as [[r1 s1] |] eqn:L; cbn [bind] in H; [| discriminate H].
  destruct (Server.process_orders s1 price) as [[r2 s2] |] eqn:P;
    cbn [bind] in H; [| discriminate H].
  pose proof (liquidation_check_pos_inv _ _ _ _ Hp L) as Hp1.
  pose proof (process_orders_pos_inv _ _ _ _ Hp1 P) as Hp2.
  apply liquidation_check_frame in L. destruct L as (_ & _ & _ & _ & L).
  rewrite <- L in S2. pose proof (process_orders_ids _ _ _ _ _ P S2) as Hi2.
  split_run H; injection H as <-; cbn; auto.
Qed.

Lemma step_inv (to_float round2 : Q -> Q) (e e' : Engine.t) :
  step to_float round2 e e' ->
  pos_inv (Server.position (Engine.server e)) ->
  ids_increasing (Engine.oid_counter e) (Server.db_orders (Engine.server e)) ->
  pos_inv (Server.position (Engine.server e'))
  /\ ids_increasing (Engine.oid_counter e') (Server.db_orders (Engine.server e')).
Proof.
  intros H Hp Hi. destruct H as [e e' price H | e e' side q p H | e lev
                                 | e e' id r H | e e' p H].
  - eapply tick_inv; eassumption.
  - unfold Client.submit_order in H.
    repeat match type of H with
           | (if ?b then _ else _) = _ => destruct b; [discriminate H |]
           end.
    injection H as <-. cbn. auto.
  - cbn. auto.
  - unfold Client.cancel_order in H.
    destruct (Client.cancel_scan _ _ id) as [[x orders'] |] eqn:C;
      cbn [bind] in H; [| discriminate H].
    destruct x; injection H as <- <-; [| auto]. cbn. split; [exact Hp |].
    assert (G : forall todo, Client.cancel_scan todo
                  (Server.db_orders (Engine.server e)) id = Ok (true, orders') ->
                ids_increasing (Engine.oid_counter e) orders').
    { induction todo as [| x l IH]; cbn; [discriminate |].
      destruct (Order.id x =? id)%Z; [| exact IH].
      destruct (list_remove x _) as [l' |] eqn:R; cbn [bind]; [| discriminate].
      intros [= <-]. eapply ids_increasing_remove; eassumption. }
    exact (G _ C).
  - unfold Client.close_position in H.
    destruct (negb (Client.price_ok p)); [discriminate H |].
    destruct (Document.position (Engine.doc e)) as [pd |]; [| discriminate H].
    destruct (negb _); injection H as <-; cbn; auto.
Qed.

(** X1.  In every state the server loop and the client can reach from
    [Server.__init__] the position invariant holds, and the ids of the
    queue are strictly increasing and below the counter of the server, so
    no two queued orders share an id. *)
Theorem reachable_invariant (to_float round2 : Q -> Q) (e : Engine.t) :
  reachable to_float round2 e ->
  pos_inv (Server.position (Engine.server e))
  /\ ids_increasing (Engine.oid_counter e) (Server.db_orders (Engine.server e))
  /\ NoDup (map Order.id (Server.db_orders (Engine.server e))).
Proof.
  intros H.
  assert (G : pos_inv (Server.position (Engine.server e))
              /\ ids_increasing (Engine.oid_counter e)
                   (Server.db_orders (Engine.server e))).
  { induction H as [balance fee_rate price | e e' _ [IH1 IH2] Hs].
    - cbn. split; [exact pos_inv_init | exact I].
    - eapply step_inv; eassumption. }
  destruct G as [G1 G2]. split; [exact G1 |]. split; [exact G2 |].
  eapply ids_increasing_NoDup; exact G2.
Qed.

Lemma reachable_invariant_witness :
  exists e,
    reachable (fun x => x) (quantize 2) e
    /\ List.length (Server.db_orders (Engine.server e)) = 1%nat
    /\ Position.side (Server.position (Engine.server e)) = 1%Z
    /\ (pos_inv (Server.position (Engine.server e))
        /\ ids_increasing (Engine.oid_counter e)
             (Server.db_orders (Engine.server e))
        /\ NoDup (map Order.id (Server.db_orders (Engine.server e)))).
Proof.
  assert (R : exists e,
             reachable (fun x => x) (quantize 2) e
             /\ List.length (Server.db_orders (Engine.server e)) = 1%nat
             /\ Position.side (Server.position (Engine.server e)) = 1%Z).
  { eexists. split; [| split].
    - eapply reachable_step;
        [eapply reachable_step;
           [eapply reachable_step;
              [eapply reachable_step;
                 [apply (reachable_init _ _ 1000 0 100) |] |] |] |].
      + apply (step_submit_order _ _ _ _ "buy" 1 None). vm_compute. reflexivity.
      + apply (step_tick _ _ _ _ 100). vm_compute. reflexivity.
      + apply (step_submit_order _ _ _ _ "sell" 2 (Some 200)).
        vm_compute. reflexivity.
      + apply (step_tick _ _ _ _ 100). vm_compute. reflexivity.
    - reflexivity.
    - reflexivity. }
  destruct R as (e & R & L & S). exists e.
  split; [exact R |]. split; [exact L |]. split; [exact S |].
  exact (reachable_invariant (fun x => x) (quantize 2) e R).
Defined.

(** X3.  The field "order" holds one order: of two orders the client
    submits between two ticks the first is lost.  The next
    [Server.submit_order] pushes the second at the end of the queue, with
    the value of the counter as id and its side in upper case, empties the
    field and moves the counter by one. *)
Theorem second_submission_replaces_first (e e1 e2 : Engine.t)
        (side1 side2 : string) (q1 q2 : Q) (p1 p2 : option Q) :
  Client.submit_order e side1 q1 p1 = inr e1 ->
  Client.submit_order e1 side2 q2 p2 = inr e2 ->
  let o := Order.mk (upper side2) q2 p2 (Engine.oid_counter e) in
  Engine.submit_order e2
  = (true,
     Engine.mk (Engine.with_orders (Engine.server e)
                  (Server.db_orders (Engine.server e) ++ [o]))
       (Engine.oid_counter e + 1)%Z
       (Engine.with_order (Engine.doc e) None))
  /\ (Order.side o = "BUY"%string \/ Order.side o = "SELL"%string)
  /\ 0 < Order.quantity o.
Proof.
  unfold Client.submit_order. intros H1 H2.
  destruct (negb (Client.is_side (upper side1))); [discriminate H1 |].
  destruct (negb (Qltb 0 q1)); [discriminate H1 |].
  destruct (negb (Client.price_ok p1)); [discriminate H1 |].
  injection H1 as <-. cbn in H2.
  destruct (negb (Client.is_side (upper side2))) eqn:S; [discriminate H2 |].
  destruct (negb (Qltb 0 q2)) eqn:Q2; [discriminate H2 |].
  destruct (negb (Client.price_ok p2)); [discriminate H2 |].
  injection H2 as <-. cbn. split; [reflexivity |]. split.
  - apply negb_false_iff in S. unfold Client.is_side in S.
    apply orb_true_iff in S. rewrite !String.eqb_eq in S. exact S.
  - apply negb_false_iff in Q2. now apply Qltb_iff.
Qed.

Lemma second_submission_replaces_first_witness :
  let e := Engine.init (fun x => x) 1000 0 100 in
  Engine.submit_order
    (Engine.mk (Engine.server e) 0
       (Engine.with_order (Engine.doc e)
          (Some (Pending.mk "SELL" 2 (Some 120)))))
  = (true,
     Engine.mk (Engine.with_orders (Engine.server e)
                  (Server.db_orders (Engine.server e)
                   ++ [Order.mk (upper "sell") 2 (Some 120) 0]))
       (0 + 1)%Z
       (Engine.with_order (Engine.doc e) None))
  /\ (upper "sell" = "BUY"%string \/ upper "sell" = "SELL"%string)
  /\ 0 < 2.
Proof.
  apply (second_submission_replaces_first
           (Engine.init (fun x => x) 1000 0 100)
           (Engine.mk (Server.init 1000 0) 0
              (Engine.with_order
                 (Engine.doc (Engine.init (fun x => x) 1000 0 100))
                 (Some (Pending.mk "BUY" 1 None))))
           _ "Buy" "sell" 1 2 None (Some 120)); reflexivity.
Defined.

(** * Orders with a zero price *)

(** X4.  The client accepts a price of 0 (it is falsy), and the server
    reads it as a limit at 0: at a positive tick a Buy at 0 is not eligible
    and stays in the queue through every run of [process_orders]; a Sell
    at 0 is eligible and is executed at the tick price. *)
Theorem zero_price_order (o : Order.t) (p price : Q) :
  Order.price o = Some p -> p == 0 -> 0 < price ->
  Client.price_ok (Order.price o) = true
  /\ (upper (Order.side o) = "BUY"%string ->
      Server.eligible price o = false
      /\ forall (s s' : Server.t) (r : option bool),
           In o (Server.db_orders s) ->
           Server.process_orders s price = Ok (r, s') ->
           In o (Server.db_orders s'))
  /\ (upper (Order.side o) = "SELL"%string ->
      Server.eligible price o = true
      /\ Server.adjust_price o price = price).
Proof.
  intros Hp Hz Hprice.
  assert (Hz' : Qeq_bool p 0 = true) by now apply Qeq_bool_iff.
  split; [| split].
  - rewrite Hp. cbn. rewrite Hz'. reflexivity.
  - intros Hs.
    assert (He : Server.eligible price o = false).
    { unfold Server.eligible. rewrite Hp, Hs. cbn. rewrite orb_false_r.
      apply Qle_bool_false_iff. rewrite Hz. exact Hprice. }
    split; [exact He |]. intros s s' r Hin Hrun.
    assert (Hf : In o (filter (ineligible price) (Server.db_orders s))).
    { apply filter_In. split; [exact Hin |]. unfold ineligible.
      rewrite He. reflexivity. }
    unfold Server.process_orders in Hrun.
    destruct (Server.check_orders (Server.db_orders s) price) as [| o' rest] eqn:C.
    + injection Hrun as <- <-. exact Hin.
    + apply check_orders_head in C. destruct C as [_ He'].
      destruct (Server.process_order s o' price) as [[b s1] |] eqn:P;
        cbn [bind] in Hrun; [| discriminate Hrun].
      injection Hrun as <- <-. apply process_order_frame in P.
      destruct P as [P _].
      rewrite <- (list_remove_keeps_ineligible price o' _ _ He' P) in Hf.
      apply filter_In in Hf. apply Hf.
  - intros Hs. split.
    + unfold Server.eligible. rewrite Hp, Hs. cbn.
      apply Qle_bool_iff. rewrite Hz. apply Qlt_le_weak. exact Hprice.
    + unfold Server.adjust_price. rewrite Hp, Hz'. reflexivity.
Qed.

Lemma zero_price_order_witness :
  Client.price_ok (Some 0) = true
  /\ (upper "buy" = "BUY"%string ->
      Server.eligible 100 (Order.mk "buy" 1 (Some 0) 3) = false
      /\ forall (s s' : Server.t) (r : option bool),
           In (Order.mk "buy" 1 (Some 0) 3) (Server.db_orders s) ->
           Server.process_orders s 100 = Ok (r, s') ->
           In (Order.mk "buy" 1 (Some 0) 3) (Server.db_orders s'))
  /\ (upper "buy" = "SELL"%string ->
      Server.eligible 100 (Order.mk "buy" 1 (Some 0) 3) = true
      /\ Server.adjust_price (Order.mk "buy" 1 (Some 0) 3) 100 = 100).
Proof.
  apply (zero_price_order (Order.mk "buy" 1 (Some 0) 3) 0 100);
    reflexivity.
Defined.

(** * Leverage *)

(** X5.  The leverage of an open position is frozen: every run of
    [process_orders] that returns leaves it as it was, also when the order
    closes the position and opens the reverse one while the document asks
    for another leverage.  On a Flat position an order that is processed
    leaves the position with the leverage of the document, and a run
    with nothing to process leaves the leverage alone. *)
Theorem leverage_frozen_while_open (s s' : Server.t) (price : Q)
        (r : option bool) :
  Server.process_orders s price = Ok (r, s') ->
  (Position.side (Server.position s) <> 0%Z ->
   Position.leverage (Server.position s')
   = Position.leverage (Server.position s))
  /\ (Position.side (Server.position s) = 0%Z -> r <> None ->
      Position.leverage (Server.position s') = Server.db_leverage s)
  /\ (r = None -> s' = s).
Proof.
  unfold Server.process_orders.
  destruct (Server.check_orders (Server.db_orders s) price) as [| o rest].
  - intros [= <- <-]. split; [reflexivity |].
    split; [intros _ H; contradiction | reflexivity].
  - destruct (Server.process_order s o price) as [[b s1] |] eqn:P;
      cbn [bind]; [| discriminate].
    intros [= <- <-]. apply process_order_leverage in P.
    pose proof (set_leverage_inv s _ _ (surjective_pairing _))
      as (L0 & _ & _ & _ & L4).
    rewrite P, L0, L4. split; [| split].
    + intros H. apply Z.eqb_neq in H. rewrite H. reflexivity.
    + intros H _. rewrite H. reflexivity.
    + discriminate.
Qed.

Lemma leverage_frozen_while_open_witness :
  exists s',
    Server.process_orders
      (Server.mk 1000 (Position.mk 1 1 100 2) 0 1 7 [Order.mk "SELL" 3 None 0])
      100
    = Ok (Some true, s')
    /\ Position.side (Server.position s') = (-1)%Z
    /\ Position.leverage (Server.position s') = 2%Z.
Proof.
  eexists. split; [vm_compute; reflexivity |]. split; [reflexivity |].
  refine (proj1 (leverage_frozen_while_open
                   (Server.mk 1000 (Position.mk 1 1 100 2) 0 1 7
                      [Order.mk "SELL" 3 None 0])
                   _ 100 (Some true) _) _).
  - vm_compute. reflexivity.
  - discriminate.
Defined.



(** * Liquidation: edge cases *)

(** X7.  A Long position with leverage 1 has liquidation price 0 whatever
    the fee rate and the quantity, so at a positive tick
    [liquidation_check] returns [False] and changes nothing. *)
Theorem long_leverage_1_never_liquidated (s : Server.t) (price : Q) :
  Position.side (Server.position s) = 1%Z ->
  Position.leverage (Server.position s) = 1%Z ->
  0 < price ->
  (exists lp,
      Position.liquidation_price (Server.position s) (Server.fee_rate s) = Ok lp
      /\ lp == 0)
  /\ Server.liquidation_check s price = Ok (false, s).
Proof.
  intros Hs Hl Hp.
  assert (H : exists lp,
             Position.liquidation_price (Server.position s) (Server.fee_rate s)
             = Ok lp /\ lp == 0).
  { unfold Position.liquidation_price. rewrite Hs, Hl.
    rewrite dec_div_ok by discriminate. cbn [bind].
    eexists. split; [reflexivity |]. change (inject_Z 1) with 1. field. }
  split; [exact H |]. destruct H as (lp & Hlp & Hz).
  unfold Server.liquidation_check. rewrite Hlp. cbn [bind]. rewrite Hs.
  cbn [Z.eqb Pos.eqb andb orb].
  assert (B : Qle_bool price lp = false)
    by (apply Qle_bool_false_iff; rewrite Hz; exact Hp).
  rewrite B. reflexivity.
Qed.

Lemma long_leverage_1_never_liquidated_witness :
  (exists lp,
      Position.liquidation_price (Position.mk 1 50 100 1) (1 # 100) = Ok lp
      /\ lp == 0)
  /\ Server.liquidation_check
       (Server.mk 10 (Position.mk 1 50 100 1) (1 # 100) 1 1 []) (1 # 10)
     = Ok (false, Server.mk 10 (Position.mk 1 50 100 1) (1 # 100) 1 1 []).
Proof.
  apply (long_leverage_1_never_liquidated
           (Server.mk 10 (Position.mk 1 50 100 1) (1 # 100) 1 1 []) (1 # 10));
    reflexivity.
Defined.

(** * A tick price of zero *)

Lemma Qfloor_unit_interval (y : Q) : 0 <= y -> y < 1 -> Qfloor y = 0%Z.
Proof.
  intros H0 H1.
  pose proof (Qfloor_le y) as Hlo. pose proof (Qlt_floor y) as Hhi.
  assert (A : (Qfloor y < 1)%Z).
  { rewrite Zlt_Qlt. change (inject_Z 1) with 1. lra. }
  assert (B : (0 < Qfloor y + 1)%Z).
  { rewrite Zlt_Qlt. change (inject_Z 0) with 0. lra. }
  lia.
Qed.

(** X10.  [last_price] rounds the ticker price to one decimal, half to
    even: a price of at most 0.05 becomes a tick of 0.  At a tick of 0 a
    Long position (leverage at least 1, fee rate not negative) meets the
    liquidation test, and [liquidation_check] raises [AssertionError] from
    the assertion [price > 0.0] of [decrease]. *)
Theorem zero_tick_liquidation_raises :
  (forall c : Q, 0 <= c -> c <= 5 # 100 -> last_price c == 0)
  /\ (forall (s : Server.t) (price : Q),
        pos_inv (Server.position s) ->
        Position.side (Server.position s) = 1%Z ->
        (1 <= Position.leverage (Server.position s))%Z ->
        0 <= Server.fee_rate s ->
        price == 0 ->
        Server.liquidation_check s price = Raise AssertionError).
Proof.
  split.
  - intros c H0 H1. unfold last_price, quantize.
    change (inject_Z (10 ^ Z.of_nat 1)) with 10.
    rewrite (Qfloor_unit_interval (c * 10)) by lra.
    destruct (c * 10 - inject_Z 0 ?= 1 # 2) eqn:C.
    + reflexivity.
    + reflexivity.
    + apply Qgt_alt in C. change (inject_Z 0) with 0 in C. lra.
  - intros s price Hinv Hs Hl Hf Hz.
    assert (Hs' : Position.side (Server.position s) <> 0%Z) by lia.
    pose proof (pos_inv_open_quantity _ Hinv Hs') as Hq.
    destruct Hinv as (_ & _ & He & _).
    assert (HL : 1 <= inject_Z (Position.leverage (Server.position s))).
    { change 1 with (inject_Z 1). rewrite <- Zle_Qle. exact Hl. }
    unfold Server.liquidation_check, Position.liquidation_price.
    rewrite dec_div_ok by lra. cbn [bind]. rewrite Hs.
    change (inject_Z 1) with 1. cbn [Z.eqb Pos.eqb andb orb].
    set (l := inject_Z (Position.leverage (Server.position s))) in *.
    set (e := Position.entry_price (Server.position s)) in *.
    set (q := Position.quantity (Server.position s)) in *.
    set (f := Server.fee_rate s) in *.
    assert (Hb : 0 <= e - 1 * e / l).
    { assert (E : e - 1 * e / l == e * (l - 1) / l) by (field; lra).
      rewrite E. apply Qle_shift_div_l; [lra | nra]. }
    assert (B : Qle_bool price (e - 1 * e / l + 1 * ((e - 1 * e / l) * q * f))
                = true).
    { apply Qle_bool_iff. rewrite Hz.
      set (b := e - 1 * e / l) in *.
      assert (H1 : 0 <= b * q) by (apply Qmult_le_0_compat; lra).
      assert (H2 : 0 <= b * q * f) by (apply Qmult_le_0_compat; lra).
      lra. }
    rewrite B. unfold Position.decrease.
    rewrite assert_ok.
    2:{ apply andb_true_iff. split; [now apply Qltb_iff |].
        apply Qle_bool_iff. apply Qle_refl. }
    cbn [bind].
    assert (P : Qltb 0 price = false)
      by (apply Qltb_false_iff; rewrite Hz; apply Qle_refl).
    rewrite P. reflexivity.
Qed.

Lemma zero_tick_liquidation_raises_witness :
  last_price (4 # 100) == 0
  /\ Server.liquidation_check
       (Server.mk 0 (Position.mk 1 20 (1 # 10) 2) 0 1 2 []) (last_price (4 # 100))
     = Raise AssertionError.
Proof.
  split.
  - apply (proj1 zero_tick_liquidation_raises (4 # 100)); discriminate.
  - apply (proj2 zero_tick_liquidation_raises
             (Server.mk 0 (Position.mk 1 20 (1 # 10) 2) 0 1 2 [])
             (last_price (4 # 100))).
    + concrete_pos_inv.
    + reflexivity.
    + cbn. lia.
    + discriminate.
    + reflexivity.
Defined.

(** * Position.value *)


(** * Liquidation followed by matching *)



(** * The tick and the snapshot *)

Lemma to_dict_inv (to_float round2 : Q -> Q) (p : Position.t) (price f : Q)
      (pd : option PositionDict.t) :
  Engine.to_dict to_float round2 p price f = Ok pd ->
  (Position.side p = 0%Z -> pd = None)
  /\ (Position.side p <> 0%Z ->
      exists d,
        pd = Some d
        /\ PositionDict.side d
           = (if (Position.side p =? 1)%Z then "Long"
              else if (Position.side p =? -1)%Z then "Short"
                   else "None")%string
        /\ PositionDict.quantity d = to_float (Position.quantity p)).
Proof.
  unfold Engine.to_dict. intros H.
  destruct (Position.side p =? 0)%Z eqn:S; cbn [negb] in H.
  - injection H as <-. apply Z.eqb_eq in S.
    split; [reflexivity | intros C; contradiction].
  - apply Z.eqb_neq in S. split; [intros C; contradiction |]. intros _.
    split_run H; injection H as <-; eexists; (split; [reflexivity |]);
      cbn [PositionDict.side PositionDict.quantity]; split; reflexivity.
Qed.

Lemma tick_inv_doc (to_float round2 : Q -> Q) (e e' : Engine.t) (price : Q) :
  Engine.tick to_float round2 e price = Ok e' ->
  Engine.to_dict to_float round2 (Server.position (Engine.server e')) price
    (Server.fee_rate (Engine.server e'))
  = Ok (Document.position (Engine.doc e'))
  /\ Document.order (Engine.doc e') = None
  /\ Document.price (Engine.doc e') = to_float price.
Proof.
  unfold Engine.tick. intros H.
  assert (Ho : Document.order (Engine.doc (snd (Engine.submit_order e))) = None).
  { unfold Engine.submit_order.
    destruct (Document.order (Engine.doc e)) eqn:O; cbn; [reflexivity | exact O]. }
  destruct (Server.liquidation_check _ price) as [[r1 s1] |];
    cbn [bind] in H; [| discriminate H].
  destruct (Server.process_orders s1 price) as [[r2 s2] |];
    cbn [bind] in H; [| discriminate H].
  destruct (Position.value _ _ _) as [v |]; cbn [bind] in H; [| discriminate H].
  destruct (Engine.to_dict _ _ _ _ _) as [pd |] eqn:T; cbn [bind] in H;
    [| discriminate H].
  destruct (if negb (Position.side (Server.position s2) =? 0)%Z then _ else _)
    as [u |]; cbn [bind] in H; [| discriminate H].
  injection H as <-. cbn. auto.
Qed.

Lemma tick_pos_inv (to_float round2 : Q -> Q) (e e' : Engine.t) (price : Q) :
  Engine.tick to_float round2 e price = Ok e' ->
  pos_inv (Server.position (Engine.server e)) ->
  pos_inv (Server.position (Engine.server e')).
Proof.
  unfold Engine.tick. intros H Hp.
  rewrite <- (proj1 (submit_order_inv e)) in Hp.
  destruct (Server.liquidation_check _ price) as [[r1 s1] |] eqn:L;
    cbn [bind] in H; [| discriminate H].
  destruct (Server.process_orders s1 price) as [[r2 s2] |] eqn:P;
    cbn [bind] in H; [| discriminate H].
  pose proof (liquidation_check_pos_inv _ _ _ _ Hp L) as Hp1.
  pose proof (process_orders_pos_inv _ _ _ _ Hp1 P) as Hp2.
  split_run H; injection H as <-; exact Hp2.
Qed.

(** X14.  After a tick the field "position" of the document is the empty
    dictionary exactly when the position is Flat.  [close_position] on it
    then raises [KeyError] (the subscript ["side"]), whatever the price
    asked; on an open position it writes the closing order: Sell for a
    Long, Buy for a Short, for the whole quantity as a float. *)
Theorem close_position_after_tick (to_float round2 : Q -> Q)
        (e e' : Engine.t) (price : Q) (p : option Q) :
  pos_inv (Server.position (Engine.server e)) ->
  Engine.tick to_float round2 e price = Ok e' ->
  Client.price_ok p = true ->
  let pos := Server.position (Engine.server e') in
  (Position.side pos = 0%Z ->
   Document.position (Engine.doc e') = None
   /\ Client.close_position e' p = inl Client.KeyError)
  /\ (Position.side pos <> 0%Z ->
      Client.close_position e' p
      = inr (Engine.mk (Engine.server e') (Engine.oid_counter e')
               (Engine.with_order (Engine.doc e')
                  (Some (Pending.mk
                           (if (Position.side pos =? 1)%Z then "SELL" else "BUY")
                           (to_float (Position.quantity pos)) p))))).
Proof.
  intros Hinv Ht Hp pos.
  pose proof (tick_pos_inv _ _ _ _ _ Ht Hinv) as Hinv'.
  destruct (tick_inv_doc _ _ _ _ _ Ht) as (Hd & _ & _).
  apply to_dict_inv in Hd. destruct Hd as [D0 D1]. fold pos in D0, D1.
  unfold Client.close_position. rewrite Hp. cbn [negb].
  split.
  - intros S. rewrite (D0 S). auto.
  - intros S. destruct (D1 S) as (d & -> & Hside & Hq).
    rewrite Hside, Hq. unfold pos in *.
    destruct Hinv' as ([H0 | [H1 | H1]] & _);
      [contradiction | |]; rewrite H1; reflexivity.
Qed.

Lemma close_position_after_tick_witness :
  exists e',
    Engine.tick (fun x => x) (quantize 2)
      (Engine.mk (Server.mk 1000 (Position.mk (-1) 2 100 5) 0 1 5 []) 3
         (Document.mk 100 1000 1040 None None)) 101
    = Ok e'
    /\ Client.close_position e' (Some 99)
       = inr (Engine.mk (Engine.server e') (Engine.oid_counter e')
                (Engine.with_order (Engine.doc e')
                   (Some (Pending.mk "BUY" 2 (Some 99))))).
Proof.
  eexists. split; [vm_compute; reflexivity |].
  refine (proj2 (close_position_after_tick (fun x => x) (quantize 2)
                   (Engine.mk (Server.mk 1000 (Position.mk (-1) 2 100 5) 0 1 5 [])
                      3 (Document.mk 100 1000 1040 None None))
                   _ 101 (Some 99) _ _ _) _).
  - concrete_pos_inv.
  - vm_compute. reflexivity.
  - reflexivity.
  - discriminate.
Defined.

(** * Closing through the document *)




Lemma cancel_order_spec_witness :
  let o0 := Order.mk "BUY" 1 (Some 90) 0 in
  let o1 := Order.mk "SELL" 2 (Some 120) 1 in
  let o2 := Order.mk "BUY" 3 None 2 in
  let e := Engine.mk (Server.mk 1000 Position.init 0 1 1 [o0; o1; o2]) 3
             (Document.mk 100 1000 1000 None None) in
  Client.cancel_order e 1
  = Ok (true, Engine.mk (Engine.with_orders (Engine.server e) ([o0] ++ [o2]))
                3 (Engine.doc e))
  /\ (ids_increasing 3 [o0; o1; o2] ->
      Forall (fun a => Order.id a <> 1%Z) ([o0] ++ [o2])).
Proof.
  intros o0 o1 o2 e.
  apply (proj2 (cancel_order_spec e 1) [o0] o1 [o2]).
  - reflexivity.
  - reflexivity.
  - repeat constructor. discriminate.
Defined.

(** * One order per tick, in queue order *)




(** * The rounding of the context *)

Lemma ilog10_fuel_spec (fuel : nat) (n : Z) :
  (0 < n)%Z -> (n < 10 * 2 ^ Z.of_nat fuel)%Z ->
  (0 <= Ctx.ilog10_fuel fuel n
   /\ 10 ^ Ctx.ilog10_fuel fuel n <= n
   /\ n < 10 ^ (Ctx.ilog10_fuel fuel n + 1))%Z.
Proof.
  revert n. induction fuel as [| fuel IH]; intros n Hn Hb.
  - cbn in Hb |- *. lia.
  - cbn [Ctx.ilog10_fuel]. destruct (Z.ltb_spec n 10) as [H | H].
    + cbn. lia.
    + assert (Hd : (0 < n / 10)%Z) by (apply Z.div_str_pos; lia).
      assert (Hb' : (n / 10 < 10 * 2 ^ Z.of_nat fuel)%Z).
      { rewrite Nat2Z.inj_succ, Z.pow_succ_r in Hb by lia.
        apply Z.div_lt_upper_bound; lia. }
      destruct (IH (n / 10)%Z Hd Hb') as (I0 & I1 & I2).
      pose proof (Z.mul_div_le n 10 ltac:(lia)) as D1.
      pose proof (Z.mul_succ_div_gt n 10 ltac:(lia)) as D2.
      split; [lia |].
      replace (1 + Ctx.ilog10_fuel fuel (n / 10))%Z
        with (Z.succ (Ctx.ilog10_fuel fuel (n / 10))) by lia.
      rewrite Z.pow_succ_r by lia.
      replace (Z.succ (Ctx.ilog10_fuel fuel (n / 10)) + 1)%Z
        with (Z.succ (Ctx.ilog10_fuel fuel (n / 10) + 1)) by lia.
      rewrite (Z.pow_succ_r 10 (Ctx.ilog10_fuel fuel (n / 10) + 1)) by lia.
      lia.
Qed.

Lemma ilog10_spec (n : Z) :
  (0 < n)%Z ->
  (0 <= Ctx.ilog10 n /\ 10 ^ Ctx.ilog10 n <= n /\ n < 10 ^ (Ctx.ilog10 n + 1))%Z.
Proof.
  intros Hn. unfold Ctx.ilog10. apply ilog10_fuel_spec; [exact Hn |].
  rewrite Z2Nat.id by apply Z.log2_nonneg.
  pose proof (Z.log2_spec n Hn) as [_ H].
  rewrite Z.pow_succ_r in H by apply Z.log2_nonneg. lia.
Qed.

Lemma ten_pow_pos (k : Z) : 0 < 10 ^ k.
Proof. apply Qpower_0_lt. reflexivity. Qed.

Lemma ten_pow_succ (k : Z) : 10 ^ (k + 1) == 10 ^ k * 10.
Proof. rewrite Qpower_plus by discriminate. reflexivity. Qed.

Lemma ten_pow_pred (k : Z) : 10 ^ (k - 1) == 10 ^ k / 10.
Proof.
  unfold Z.sub. rewrite Qpower_plus by discriminate. reflexivity.
Qed.

(** The adjusted exponent is the one of the value. *)
Lemma adjusted_spec (x : Q) :
  0 < x -> 10 ^ Ctx.adjusted x <= x /\ x < 10 ^ (Ctx.adjusted x + 1).
Proof.
  intros Hx. destruct x as [n d].
  assert (Hn : (0 < n)%Z) by (unfold Qlt in Hx; cbn in Hx; lia).
  destruct (ilog10_spec n Hn) as (A0 & A1 & A2).
  destruct (ilog10_spec (Zpos d) ltac:(lia)) as (B0 & B1 & B2).
  unfold Ctx.adjusted. cbn [Qnum Qden].
  set (a := Ctx.ilog10 n) in *. set (b := Ctx.ilog10 (Zpos d)) in *.
  assert (EA : inject_Z (10 ^ a) == 10 ^ a) by now apply Zpower_Qpower.
  assert (EB : inject_Z (10 ^ b) == 10 ^ b) by now apply Zpower_Qpower.
  pose proof (ten_pow_pos a) as PA. pose proof (ten_pow_pos b) as PB.
  assert (Hx' : n # d == inject_Z n / inject_Z (Zpos d)) by apply Qmake_Qdiv.
  assert (Hd : 0 < inject_Z (Zpos d))
    by (change 0 with (inject_Z 0); rewrite <- Zlt_Qlt; lia).
  assert (N1 : 10 ^ a <= inject_Z n) by (rewrite <- EA, <- Zle_Qle; exact A1).
  assert (N2 : inject_Z n < 10 ^ a * 10).
  { rewrite <- ten_pow_succ.
    assert (E : inject_Z (10 ^ (a + 1)) == 10 ^ (a + 1))
      by (apply Zpower_Qpower; lia).
    rewrite <- E, <- Zlt_Qlt. exact A2. }
  assert (D1 : 10 ^ b <= inject_Z (Zpos d))
    by (rewrite <- EB, <- Zle_Qle; exact B1).
  assert (D2 : inject_Z (Zpos d) < 10 ^ b * 10).
  { rewrite <- ten_pow_succ.
    assert (E : inject_Z (10 ^ (b + 1)) == 10 ^ (b + 1))
      by (apply Zpower_Qpower; lia).
    rewrite <- E, <- Zlt_Qlt. exact B2. }
  assert (K : 10 ^ (a - b) == 10 ^ a / 10 ^ b)
    by (apply Qpower_minus; discriminate).
  assert (Lo : 10 ^ (a - b - 1) < n # d).
  { rewrite ten_pow_pred, K, Hx'.
    apply Qlt_shift_div_l; [exact Hd |].
    assert (E : 10 ^ a / 10 ^ b / 10 * inject_Z (Z.pos d)
                == 10 ^ a * (inject_Z (Z.pos d) / (10 ^ b * 10)))
      by (field; lra).
    rewrite E.
    assert (F : inject_Z (Z.pos d) / (10 ^ b * 10) < 1)
      by (apply Qlt_shift_div_r; lra).
    nra. }
  assert (Hi : n # d < 10 ^ (a - b + 1)).
  { rewrite ten_pow_succ, K, Hx'.
    apply Qlt_shift_div_r; [exact Hd |].
    assert (E : 10 ^ a / 10 ^ b * 10 * inject_Z (Z.pos d)
                == 10 ^ a * 10 * (inject_Z (Z.pos d) / 10 ^ b))
      by (field; lra).
    rewrite E.
    assert (F : 1 <= inject_Z (Z.pos d) / 10 ^ b)
      by (apply Qle_shift_div_l; lra).
    nra. }
  destruct (Qle_bool (10 ^ (a - b)) (n # d)) eqn:C.
  - apply Qle_bool_iff in C. split; [exact C | exact Hi].
  - apply Qle_bool_false_iff in C. split; [apply Qlt_le_weak; exact Lo |].
    replace (a - b - 1 + 1)%Z with (a - b)%Z by lia. exact C.
Qed.

Lemma round_half_even_error (y : Q) :
  Qabs (inject_Z (round_half_even y) - y) <= 1 # 2.
Proof.
  unfold round_half_even.
  pose proof (Qfloor_le y) as Hlo. pose proof (Qlt_floor y) as Hhi.
  rewrite inject_Z_plus in Hhi. change (inject_Z 1) with 1 in Hhi.
  apply Qabs_Qle_condition.
  destruct (y - inject_Z (Qfloor y) ?= 1 # 2) eqn:C.
  - apply Qeq_alt in C.
    destruct (Z.even (Qfloor y));
      rewrite ?inject_Z_plus; change (inject_Z 1) with 1; split; lra.
  - apply Qlt_alt in C. split; lra.
  - apply Qgt_alt in C. rewrite inject_Z_plus. change (inject_Z 1) with 1.
    split; lra.
Qed.

#[global] Instance round_proper : Proper (Qeq ==> Qeq) Ctx.round.
Proof.
  intros x y H. unfold Ctx.round. rewrite (Qred_complete x y H). reflexivity.
Qed.

#[global] Instance add_proper : Proper (Qeq ==> Qeq ==> Qeq) Ctx.add.
Proof. intros x y H x' y' H'. unfold Ctx.add. rewrite H, H'. reflexivity. Qed.

#[global] Instance sub_proper : Proper (Qeq ==> Qeq ==> Qeq) Ctx.sub.
Proof. intros x y H x' y' H'. unfold Ctx.sub. rewrite H, H'. reflexivity. Qed.

#[global] Instance mul_proper : Proper (Qeq ==> Qeq ==> Qeq) Ctx.mul.
Proof. intros x y H x' y' H'. unfold Ctx.mul. rewrite H, H'. reflexivity. Qed.

Lemma round_zero (x : Q) : x == 0 -> Ctx.round x == 0.
Proof. intros H. rewrite H. reflexivity. Qed.

(** One rounding moves a positive value by at most [u] times the value. *)
Lemma round_error (x : Q) :
  0 < x -> x * (1 - Ctx.u) <= Ctx.round x /\ Ctx.round x <= x * (1 + Ctx.u).
Proof.
  intros Hx. unfold Ctx.round.
  pose proof (Qred_correct x) as R. set (x' := Qred x) in *.
  assert (Hx' : 0 < x') by (rewrite R; exact Hx).
  assert (Z : Qeq_bool x' 0 = false) by (apply Qeq_bool_false_iff; lra).
  rewrite Z.
  assert (P : Qle_bool 0 x' = true) by (apply Qle_bool_iff; lra).
  rewrite P.
  assert (Ha : 0 < Qabs x') by (rewrite Qabs_pos; lra).
  destruct (adjusted_spec (Qabs x') Ha) as [K1 _].
  set (k := Ctx.adjusted (Qabs x')) in *.
  set (s := 10 ^ (Ctx.prec - 1 - k)).
  assert (Hs : 0 < s) by apply ten_pow_pos.
  assert (Hks : 10 ^ k * s == 10 ^ 27).
  { unfold s. rewrite <- Qpower_plus by discriminate.
    replace (k + (Ctx.prec - 1 - k))%Z with 27%Z by (unfold Ctx.prec; lia).
    reflexivity. }
  pose proof (round_half_even_error (Qabs x' * s)) as E.
  apply Qabs_Qle_condition in E. destruct E as [E1 E2].
  set (m := inject_Z (round_half_even (Qabs x' * s))) in *.
  assert (A : Qabs x' == x) by (rewrite Qabs_pos; lra).
  rewrite A in E1, E2, K1.
  assert (Y : 10 ^ 27 <= x * s).
  { rewrite <- Hks. apply Qmult_le_compat_r; lra. }
  change (10 ^ 27) with 1000000000000000000000000000 in Y.
  unfold Ctx.u. split.
  - apply Qle_shift_div_l; [exact Hs |]. nra.
  - apply Qle_shift_div_r; [exact Hs |]. nra.
Qed.

Lemma round_pos (x : Q) : 0 < x -> 0 < Ctx.round x.
Proof.
  intros Hx. destruct (round_error x Hx) as [H _].
  unfold Ctx.u in H. nra.
Qed.

Lemma round_nonneg (x : Q) : 0 <= x -> 0 <= Ctx.round x.
Proof.
  intros Hx. destruct (Qlt_le_dec 0 x) as [H | H].
  - apply Qlt_le_weak, round_pos, H.
  - rewrite (round_zero x) by lra. apply Qle_refl.
Qed.

Lemma round_error_nonneg (x : Q) :
  0 <= x -> x * (1 - Ctx.u) <= Ctx.round x /\ Ctx.round x <= x * (1 + Ctx.u).
Proof.
  intros Hx. destruct (Qlt_le_dec 0 x) as [H | H].
  - now apply round_error.
  - assert (E : x == 0) by lra. rewrite (round_zero x E), E. split; lra.
Qed.

Lemma round_exact (x : Q) : Ctx.exact x -> Ctx.round x == x.
Proof.
  intros (m & k & Hm & Hx).
  destruct (Z.eq_dec m 0) as [-> | Hm0].
  { assert (E : x == 0) by (rewrite Hx; ring).
    rewrite (round_zero x E), E. reflexivity. }
  assert (Hk : 0 < 10 ^ k) by apply ten_pow_pos.
  assert (Habs : Qabs x == inject_Z (Z.abs m) * 10 ^ k).
  { rewrite Hx, Qabs_Qmult, (Qabs_pos (10 ^ k)) by lra.
    apply Qmult_comp; [| reflexivity].
    unfold Qabs, inject_Z. reflexivity. }
  assert (Hm1 : 1 <= inject_Z (Z.abs m)).
  { change 1 with (inject_Z 1). rewrite <- Zle_Qle. lia. }
  assert (Hm2 : inject_Z (Z.abs m) < 10 ^ 28).
  { assert (E : inject_Z (10 ^ 28) == 10 ^ 28) by reflexivity.
    rewrite <- E, <- Zlt_Qlt. exact Hm. }
  unfold Ctx.round.
  pose proof (Qred_correct x) as R. set (x' := Qred x) in *.
  assert (Hx0 : ~ x' == 0).
  { rewrite R, Hx. intros E.
    apply Qmult_integral in E. destruct E as [E | E]; [| lra].
    apply Hm0. unfold Qeq in E. cbn in E. lia. }
  rewrite (proj2 (Qeq_bool_false_iff _ _) Hx0).
  assert (Ha : 0 < Qabs x').
  { destruct (Qlt_le_dec 0 x') as [G | G].
    - rewrite Qabs_pos; lra.
    - rewrite Qabs_neg; [| exact G].
      destruct (Qeq_dec x' 0) as [E | E]; [contradiction | lra]. }
  destruct (adjusted_spec (Qabs x') Ha) as [K1 K2].
  set (a := Ctx.adjusted (Qabs x')) in *.
  assert (A : Qabs x' == inject_Z (Z.abs m) * 10 ^ k) by (rewrite R; exact Habs).
  assert (Hj : (0 <= k + (Ctx.prec - 1 - a))%Z).
  { assert (L : 10 ^ a < 10 ^ (28 + k)).
    { eapply Qle_lt_trans; [exact K1 |]. rewrite A.
      rewrite Qpower_plus by discriminate.
      apply Qmult_lt_compat_r; assumption. }
    destruct (Z_lt_le_dec a (28 + k)) as [G | G]; [unfold Ctx.prec; lia |].
    exfalso. apply (Qlt_irrefl (10 ^ a)).
    eapply Qlt_le_trans; [exact L |].
    apply Qpower_le_compat_l; [exact G | discriminate]. }
  set (j := (k + (Ctx.prec - 1 - a))%Z) in *.
  assert (Y : Qabs x' * 10 ^ (Ctx.prec - 1 - a)
              == inject_Z (Z.abs m * 10 ^ j)).
  { rewrite A, inject_Z_mult, <- Qmult_assoc, <- Qpower_plus by discriminate.
    fold j. apply Qmult_comp; [reflexivity |].
    symmetry. apply (Zpower_Qpower 10 j Hj). }
  assert (M : round_half_even (Qabs x' * 10 ^ (Ctx.prec - 1 - a))
              = (Z.abs m * 10 ^ j)%Z).
  { unfold round_half_even.
    rewrite (Qfloor_comp _ _ Y), Qfloor_Z.
    assert (C : (Qabs x' * 10 ^ (Ctx.prec - 1 - a)
                 - inject_Z (Z.abs m * 10 ^ j) ?= 1 # 2) = Lt).
    { apply (proj1 (Qlt_alt _ _)). rewrite Y.
      set (z := inject_Z (Z.abs m * 10 ^ j)). lra. }
    rewrite C. reflexivity. }
  rewrite M.
  set (s := 10 ^ (Ctx.prec - 1 - a)) in *.
  assert (Hs : 0 < s) by apply ten_pow_pos.
  rewrite <- R.
  destruct (Qle_bool 0 x') eqn:P.
  - apply Qle_bool_iff in P. rewrite <- Y, (Qabs_pos x' P). field. lra.
  - apply Qle_bool_false_iff in P.
    rewrite <- Y, (Qabs_neg x') by lra. field. lra.
Qed.

Lemma ctx_div_ok (a b : Q) : ~ b == 0 -> Ctx.div a b = Ok (Ctx.round (a / b)).
Proof.
  intros H. unfold Ctx.div.
  apply Qeq_bool_false_iff in H. rewrite H. reflexivity.
Qed.

Lemma ctx_sub_self (x : Q) : Ctx.sub x x == 0.
Proof. unfold Ctx.sub. apply round_zero. ring. Qed.

(** * Position.decrease in the context *)

Lemma ctx_decrease_ok (p : Position.t) (qty price : Q) :
  0 < qty -> qty <= Position.quantity p -> 0 < price ->
  Ctx.decrease p qty price =
    Ok (Ctx.mul qty (Position.entry_price p),
        Ctx.mul (Ctx.mul (inject_Z (Position.side p)) qty)
                (Ctx.sub price (Position.entry_price p)),
        if Qeq_bool (Ctx.sub (Position.quantity p) qty) 0
        then Position.mk 0 (Ctx.sub (Position.quantity p) qty) 0
                         (Position.leverage p)
        else Position.mk (Position.side p) (Ctx.sub (Position.quantity p) qty)
                         (Position.entry_price p) (Position.leverage p)).
Proof.
  intros Hq Hle Hp. unfold Ctx.decrease.
  rewrite assert_ok.
  2:{ apply andb_true_iff. split; [now apply Qltb_iff | now apply Qle_bool_iff]. }
  cbn [bind]. rewrite assert_ok by now apply Qltb_iff. cbn [bind].
  destruct (Qeq_bool (Ctx.sub (Position.quantity p) qty) 0); reflexivity.
Qed.

(** The rounded difference is zero only for a zero difference. *)
Lemma ctx_sub_zero_iff (a b : Q) : b <= a -> (Ctx.sub a b == 0 <-> b == a).
Proof.
  intros H. unfold Ctx.sub. split.
  - intros E. destruct (Qlt_le_dec 0 (a - b)) as [G | G]; [| lra].
    pose proof (round_pos _ G). lra.
  - intros E. apply round_zero. lra.
Qed.

(** C6.  With [0 < qty <= quantity] and [price > 0], [decrease(qty, price)]
    returns [(initial, pnl)] and leaves the quantity at the values the
    context gives: [initial] is [qty * entry_price], [pnl] is
    [side * qty * (price - entry_price)] and the new quantity is
    [quantity - qty], each operation rounded to 28 significant digits.
    The new quantity is within [u] times the exact difference of it and is
    the exact difference when that has at most 28 digits; it is zero exactly
    when [qty == quantity].  The leverage is kept; when the new quantity is
    zero the side becomes 0 (Flat) and the entry price 0, otherwise side and
    entry price are unchanged. *)
Theorem decrease_in_context (p : Position.t) (qty price : Q) :
  0 < qty -> qty <= Position.quantity p -> 0 < price ->
  exists p',
    Ctx.decrease p qty price =
      Ok (Ctx.round (qty * Position.entry_price p),
          Ctx.round (Ctx.round (inject_Z (Position.side p) * qty)
                     * Ctx.round (price - Position.entry_price p)),
          p')
    /\ Position.quantity p' = Ctx.round (Position.quantity p - qty)
    /\ (Position.quantity p - qty) * (1 - Ctx.u) <= Position.quantity p'
    /\ Position.quantity p' <= (Position.quantity p - qty) * (1 + Ctx.u)
    /\ (Ctx.exact (Position.quantity p - qty) ->
        Position.quantity p' == Position.quantity p - qty)
    /\ (Ctx.exact (qty * Position.entry_price p) ->
        Ctx.round (qty * Position.entry_price p)
        == qty * Position.entry_price p)
    /\ (Position.quantity p' == 0 <-> qty == Position.quantity p)
    /\ Position.leverage p' = Position.leverage p
    /\ (Position.quantity p' == 0 ->
        Position.side p' = 0%Z /\ Position.entry_price p' = 0)
    /\ (~ Position.quantity p' == 0 ->
        Position.side p' = Position.side p
        /\ Position.entry_price p' = Position.entry_price p).
Proof.
  intros Hq Hle Hp. eexists. split; [apply ctx_decrease_ok; assumption |].
  assert (Hd : 0 <= Position.quantity p - qty) by lra.
  pose proof (round_error_nonneg _ Hd) as [E1 E2].
  pose proof (ctx_sub_zero_iff (Position.quantity p) qty Hle) as Z.
  unfold Ctx.sub in *.
  destruct (Qeq_bool (Ctx.round (Position.quantity p - qty)) 0) eqn:E; cbn.
  - apply Qeq_bool_iff in E.
    repeat split; auto using round_exact; try apply Z; intros; contradiction.
  - apply Qeq_bool_false_iff in E.
    repeat split; auto using round_exact; try apply Z; intros; contradiction.
Qed.

(** C6 as stated fails on the quantity and on [initial].  With quantity
    1E+10 and qty 1E-20 the difference has 31 digits and the quantity stays
    1E+10; with entry price 106.6666666666666666666666667 and qty 0.37 the
    product has 30 digits and [initial] is
    39.46666666666666666666666668. *)
Lemma decrease_exact_difference_counterexample :
  (exists i pn p',
     Ctx.decrease (Position.mk 1 10000000000 100 5)
                  (1 # 100000000000000000000) 100 = Ok (i, pn, p')
     /\ Position.quantity p' == 10000000000
     /\ ~ Position.quantity p'
          == 10000000000 - (1 # 100000000000000000000))
  /\ (exists i pn p',
        Ctx.decrease
          (Position.mk 1 1
             (1066666666666666666666666667 # 10000000000000000000000000) 5)
          (37 # 100) 100 = Ok (i, pn, p')
        /\ i == 3946666666666666666666666668 # 100000000000000000000000000
        /\ ~ i == (37 # 100)
                  * (1066666666666666666666666667
                     # 10000000000000000000000000)).
Proof.
  split.
  - do 3 eexists. split; [vm_compute; reflexivity |].
    cbn [Position.quantity]. split; [reflexivity | discriminate].
  - do 3 eexists. split; [vm_compute; reflexivity |].
    split; [reflexivity | discriminate].
Qed.

Lemma decrease_in_context_witness :
  exists p',
    Ctx.decrease (Position.mk 1 2 100 5) 2 110 =
      Ok (Ctx.round (2 * 100),
          Ctx.round (Ctx.round (inject_Z 1 * 2) * Ctx.round (110 - 100)),
          p')
    /\ Position.quantity p' == 0
    /\ Position.side p' = 0%Z
    /\ Position.entry_price p' = 0
    /\ Position.leverage p' = 5%Z.
Proof.
  destruct (decrease_in_context (Position.mk 1 2 100 5) 2 110)
    as (p' & Hrun & Hq & _ & _ & _ & _ & Hz & Hl & Hreset & _);
    [cbn; lra | cbn; lra | lra |].
  exists p'. split; [exact Hrun |].
  assert (Z : Position.quantity p' == 0) by (apply Hz; reflexivity).
  destruct (Hreset Z) as [Hs He]. auto.
Defined.

(** * The liquidation check in the context *)

Lemma ctx_liquidation_price_ok (p : Position.t) (f : Q) :
  Position.leverage p <> 0%Z ->
  exists lp, Ctx.liquidation_price p f = Ok lp.
Proof.
  intros H. unfold Ctx.liquidation_price.
  rewrite ctx_div_ok by now apply inject_Z_nonzero. cbn [bind]. eauto.
Qed.

(** C3.  In a state satisfying the position invariant, at a positive tick
    price, with the operations rounded as the context rounds them: when the
    position is Long and the price is at most the liquidation price, or
    Short and the price is at least the liquidation price,
    [liquidation_check] returns [True] after [decrease(quantity, price)] on
    the whole quantity, which leaves the position Flat with quantity zero,
    and the balance is the one before; otherwise it returns [False] and the
    state is unchanged. *)
Theorem liquidation_check_at_positive_tick (s : Server.t) (price : Q) :
  let pos := Server.position s in
  pos_inv pos -> Position.leverage pos <> 0%Z -> 0 < price ->
  exists lp,
    Ctx.liquidation_price pos (Server.fee_rate s) = Ok lp
    /\ ((Position.side pos = 1%Z /\ price <= lp)
        \/ (Position.side pos = (-1)%Z /\ lp <= price) ->
        exists initial pnl pos',
          Ctx.decrease pos (Position.quantity pos) price
          = Ok (initial, pnl, pos')
          /\ Ctx.liquidation_check s price
             = Ok (true, Server.mk (Server.balance s) pos' (Server.fee_rate s)
                           (Server.unit s) (Server.db_leverage s)
                           (Server.db_orders s))
          /\ Position.side pos' = 0%Z
          /\ Position.quantity pos' == 0
          /\ Position.entry_price pos' = 0
          /\ Position.leverage pos' = Position.leverage pos)
    /\ (~ ((Position.side pos = 1%Z /\ price <= lp)
           \/ (Position.side pos = (-1)%Z /\ lp <= price)) ->
        Ctx.liquidation_check s price = Ok (false, s)).
Proof.
  intros pos Hinv Hl Hp.
  destruct (ctx_liquidation_price_ok pos (Server.fee_rate s) Hl) as [lp Hlp].
  exists lp. split; [exact Hlp |].
  unfold Ctx.liquidation_check. fold pos. rewrite Hlp. cbn [bind].
  split.
  - intros Ht.
    assert (Hs : Position.side pos <> 0%Z)
      by (destruct Ht as [[-> _] | [-> _]]; lia).
    pose proof (pos_inv_open_quantity pos Hinv Hs) as Hq.
    apply liquidation_trigger_iff in Ht. rewrite Ht.
    rewrite (ctx_decrease_ok pos _ price Hq (Qle_refl _) Hp).
    pose proof (ctx_sub_self (Position.quantity pos)) as Hz.
    rewrite (proj2 (Qeq_bool_iff _ _) Hz). cbn [bind].
    do 3 eexists. split; [reflexivity |]. split; [reflexivity |].
    cbn. repeat split. exact Hz.
  - intros Ht.
    destruct (((Position.side pos =? 1)%Z && Qle_bool price lp)
              || ((Position.side pos =? -1)%Z && Qle_bool lp price)) eqn:B.
    + apply liquidation_trigger_iff in B. contradiction.
    + reflexivity.
Qed.

(** C3 as stated fails at a tick price of 0, which [last_price] returns for
    a ticker price of at most 0.05: a Long of 1 at 100 with leverage 2 has
    the liquidation price 50, the trigger [0 <= 50] holds, and the check
    raises [AssertionError] from [assert price > 0.0] of [decrease] instead
    of closing the position. *)
Lemma liquidation_check_zero_tick_counterexample :
  let s := Server.mk 1000 (Position.mk 1 1 100 2) 0 1 2 [] in
  pos_inv (Server.position s)
  /\ last_price (4 # 100) == 0
  /\ (exists lp,
        Ctx.liquidation_price (Server.position s) (Server.fee_rate s) = Ok lp
        /\ lp == 50
        /\ Position.side (Server.position s) = 1%Z /\ 0 <= lp)
  /\ Ctx.liquidation_check s 0 = Raise AssertionError.
Proof.
  cbn zeta. split; [concrete_pos_inv |].
  split; [reflexivity |].
  split.
  - eexists. split; [vm_compute; reflexivity |].
    split; [reflexivity |]. split; [reflexivity | discriminate].
  - vm_compute. reflexivity.
Qed.

Lemma liquidation_check_at_positive_tick_witness :
  exists s',
    Ctx.liquidation_check
      (Server.mk 1000 (Position.mk 1 1 100 10) 0 1 1 []) 90
    = Ok (true, s')
    /\ Position.side (Server.position s') = 0%Z
    /\ Position.quantity (Server.position s') == 0
    /\ Server.balance s' = 1000.
Proof.
  destruct (liquidation_check_at_positive_tick
              (Server.mk 1000 (Position.mk 1 1 100 10) 0 1 1 []) 90)
    as (lp & Hlp & Hfire & _).
  - concrete_pos_inv.
  - cbn. discriminate.
  - lra.
  - vm_compute in Hlp. injection Hlp as <-.
    destruct Hfire as (i & pn & pos' & _ & Hrun & Hs & Hq & _).
    + left. split; [reflexivity | discriminate].
    + eexists. split; [exact Hrun |]. cbn. auto.
Defined.

(** * Position.increase in the context *)

Lemma ctx_increase_ok (p : Position.t) (qty price : Q) :
  0 < qty -> 0 < price -> 0 <= Position.quantity p ->
  Ctx.increase p qty price =
    Ok (Position.mk (Position.side p)
          (Ctx.round (Position.quantity p + qty))
          (Ctx.round
             (Ctx.round (Ctx.round (Position.quantity p * Position.entry_price p)
                         + Ctx.round (qty * price))
              / Ctx.round (Position.quantity p + qty)))
          (Position.leverage p)).
Proof.
  intros Hq Hp Hn. unfold Ctx.increase.
  rewrite !assert_ok by now apply Qltb_iff. cbn [bind].
  unfold Ctx.add, Ctx.mul.
  rewrite ctx_div_ok; [reflexivity |].
  assert (H : 0 < Ctx.round (Position.quantity p + qty))
    by (apply round_pos; lra).
  lra.
Qed.

Lemma ctx_increases_app (p : Position.t) (l1 l2 : list (Q * Q)) :
  Ctx.increases p (l1 ++ l2)
  = (p' <- Ctx.increases p l1 ;; Ctx.increases p' l2).
Proof.
  revert p. induction l1 as [| [q c] l1 IH]; intros p; cbn; [reflexivity |].
  destruct (Ctx.increase p q c); cbn; [apply IH | reflexivity].
Qed.

Lemma shrink_bounds : 0 < Ctx.shrink /\ Ctx.shrink <= 1.
Proof.
  unfold Ctx.shrink, Ctx.u. split.
  - apply Qlt_shift_div_l; [reflexivity | reflexivity].
  - apply Qle_shift_div_r; [reflexivity | discriminate].
Qed.

Lemma grow_bounds : 1 <= Ctx.grow.
Proof.
  unfold Ctx.grow, Ctx.u. apply Qle_shift_div_l; [reflexivity | discriminate].
Qed.

Lemma pow_shrink_bounds (n : nat) :
  0 < Ctx.pow Ctx.shrink n /\ Ctx.pow Ctx.shrink n <= 1.
Proof.
  destruct shrink_bounds as [S1 S2].
  induction n as [| n [IH1 IH2]]; cbn [Ctx.pow]; [split; lra |].
  split; nra.
Qed.

Lemma pow_grow_bounds (n : nat) : 1 <= Ctx.pow Ctx.grow n.
Proof.
  pose proof grow_bounds as G.
  induction n as [| n IH]; cbn [Ctx.pow]; [lra | nra].
Qed.

(** Four roundings in a row: a quotient [(q * e + x * p) / (q + x)] that
    lies in [[lo, hi]] is computed in [[lo * shrink, hi * grow]]. *)
Lemma ctx_average_between (q e x p lo hi : Q) :
  0 <= q -> 0 <= e -> 0 < x -> 0 < p ->
  lo * (q + x) <= q * e + x * p -> q * e + x * p <= hi * (q + x) ->
  lo * Ctx.shrink
  <= Ctx.round (Ctx.round (Ctx.round (q * e) + Ctx.round (x * p))
                / Ctx.round (q + x))
  /\ Ctx.round (Ctx.round (Ctx.round (q * e) + Ctx.round (x * p))
                / Ctx.round (q + x))
     <= hi * Ctx.grow.
Proof.
  intros Hq He Hx Hp N1 N2.
  assert (Hqe : 0 <= q * e) by (apply Qmult_le_0_compat; assumption).
  assert (Hxp : 0 <= x * p) by (apply Qmult_le_0_compat; lra).
  pose proof (round_error_nonneg _ Hqe) as [A1 A2].
  pose proof (round_error_nonneg _ Hxp) as [B1 B2].
  pose proof (round_nonneg _ Hqe) as A0.
  pose proof (round_nonneg _ Hxp) as B0.
  set (a := Ctx.round (q * e)) in *. set (b := Ctx.round (x * p)) in *.
  assert (Hab : 0 <= a + b) by lra.
  pose proof (round_error_nonneg _ Hab) as [S1 S2].
  pose proof (round_nonneg _ Hab) as S0.
  set (s := Ctx.round (a + b)) in *.
  assert (Hd : 0 < q + x) by lra.
  pose proof (round_error _ Hd) as [T1 T2].
  pose proof (round_pos _ Hd) as T0.
  set (t := Ctx.round (q + x)) in *.
  assert (Hr : 0 <= s / t) by (apply Qle_shift_div_l; lra).
  pose proof (round_error_nonneg _ Hr) as [R1 R2].
  set (r := s / t) in *.
  assert (Ert : r * t == s) by (unfold r; field; lra).
  unfold Ctx.shrink, Ctx.grow. unfold Ctx.u in *.
  assert (G1 : t * r <= (q + x) * (1 + (1 # 2000000000000000000000000000)) * r)
    by (apply Qmult_le_compat_r; assumption).
  assert (G2 : (q + x) * (1 - (1 # 2000000000000000000000000000)) * r <= t * r)
    by (apply Qmult_le_compat_r; assumption).
  split.
  - set (c := lo * ((1 - (1 # 2000000000000000000000000000))
                    * (1 - (1 # 2000000000000000000000000000)))).
    assert (C' : c <= r * (1 + (1 # 2000000000000000000000000000))).
    { apply (Qmult_le_r _ _ (q + x) Hd). unfold c. lra. }
    assert (E : lo * ((1 - (1 # 2000000000000000000000000000))
                      * (1 - (1 # 2000000000000000000000000000))
                      * (1 - (1 # 2000000000000000000000000000))
                      / (1 + (1 # 2000000000000000000000000000)))
                == c / (1 + (1 # 2000000000000000000000000000))
                   * (1 - (1 # 2000000000000000000000000000)))
      by (unfold c; field; discriminate).
    rewrite E.
    assert (F : c / (1 + (1 # 2000000000000000000000000000)) <= r)
      by (apply Qle_shift_div_r; [reflexivity | exact C']).
    set (c' := c / (1 + (1 # 2000000000000000000000000000))) in *.
    lra.
  - set (c := hi * ((1 + (1 # 2000000000000000000000000000))
                    * (1 + (1 # 2000000000000000000000000000)))).
    assert (C' : r * (1 - (1 # 2000000000000000000000000000)) <= c).
    { apply (Qmult_le_r _ _ (q + x) Hd). unfold c. lra. }
    assert (E : hi * ((1 + (1 # 2000000000000000000000000000))
                      * (1 + (1 # 2000000000000000000000000000))
                      * (1 + (1 # 2000000000000000000000000000))
                      / (1 - (1 # 2000000000000000000000000000)))
                == c / (1 - (1 # 2000000000000000000000000000))
                   * (1 + (1 # 2000000000000000000000000000)))
      by (unfold c; field; discriminate).
    rewrite E.
    assert (F : r <= c / (1 - (1 # 2000000000000000000000000000)))
      by (apply Qle_shift_div_l; [reflexivity | exact C']).
    set (c' := c / (1 - (1 # 2000000000000000000000000000))) in *.
    lra.
Qed.

(** The entry price [increase] stores is the weighted average of the old
    entry price and the price of the call up to four roundings. *)
Lemma ctx_average_error (q e x p : Q) :
  0 <= q -> 0 <= e -> 0 < x -> 0 < p ->
  (q * e + x * p) / (q + x) * Ctx.shrink
  <= Ctx.round (Ctx.round (Ctx.round (q * e) + Ctx.round (x * p))
                / Ctx.round (q + x))
  /\ Ctx.round (Ctx.round (Ctx.round (q * e) + Ctx.round (x * p))
                / Ctx.round (q + x))
     <= (q * e + x * p) / (q + x) * Ctx.grow.
Proof.
  intros Hq He Hx Hp.
  assert (E : (q * e + x * p) / (q + x) * (q + x) == q * e + x * p)
    by (field; lra).
  apply ctx_average_between; try assumption; rewrite E; apply Qle_refl.
Qed.

Lemma ctx_average_bounds (q e x p lo hi : Q) :
  0 <= q -> 0 <= e -> 0 < x -> 0 < p ->
  q == 0 \/ (lo <= e /\ e <= hi) -> lo <= p -> p <= hi ->
  lo * Ctx.shrink
  <= Ctx.round (Ctx.round (Ctx.round (q * e) + Ctx.round (x * p))
                / Ctx.round (q + x))
  /\ Ctx.round (Ctx.round (Ctx.round (q * e) + Ctx.round (x * p))
                / Ctx.round (q + x))
     <= hi * Ctx.grow.
Proof.
  intros Hq He Hx Hp Hin Hlp Hph.
  apply ctx_average_between; try assumption.
  - destruct Hin as [Hz | [H1 H2]]; [rewrite Hz |]; nra.
  - destruct Hin as [Hz | [H1 H2]]; [rewrite Hz |]; nra.
Qed.

Lemma ctx_increases_bounds (calls : list (Q * Q)) (lo hi : Q) :
  0 < lo ->
  Forall valid_call calls ->
  Forall (fun c => lo <= snd c /\ snd c <= hi) calls ->
  forall (j : nat) (p : Position.t),
    0 <= Position.quantity p -> 0 <= Position.entry_price p ->
    Position.quantity p == 0
    \/ (lo * Ctx.pow Ctx.shrink j <= Position.entry_price p
        /\ Position.entry_price p <= hi * Ctx.pow Ctx.grow j) ->
    exists p',
      Ctx.increases p calls = Ok p'
      /\ 0 <= Position.quantity p' /\ 0 <= Position.entry_price p'
      /\ (Position.quantity p' == 0
          \/ (lo * Ctx.pow Ctx.shrink (List.length calls + j)
              <= Position.entry_price p'
              /\ Position.entry_price p'
                 <= hi * Ctx.pow Ctx.grow (List.length calls + j))).
Proof.
  intros Hlo. induction calls as [| [x c] calls IH]; intros Hv Hb j p Hq He Hin.
  - exists p. cbn. auto.
  - inversion Hv as [| ? ? [Hvx Hvc] Hv']; subst.
    inversion Hb as [| ? ? [Hlc Hch] Hb']; subst.
    cbn in Hvx, Hvc, Hlc, Hch. cbn [Ctx.increases].
    rewrite ctx_increase_ok by assumption. cbn [bind].
    destruct (pow_shrink_bounds j) as [P1 P2].
    pose proof (pow_grow_bounds j) as P3.
    assert (L1 : lo * Ctx.pow Ctx.shrink j <= c) by nra.
    assert (L2 : c <= hi * Ctx.pow Ctx.grow j) by nra.
    destruct (ctx_average_bounds (Position.quantity p)
                (Position.entry_price p) x c _ _ Hq He Hvx Hvc Hin L1 L2)
      as [B1 B2].
    destruct shrink_bounds as [S1 _].
    assert (L0 : 0 < lo * Ctx.pow Ctx.shrink j * Ctx.shrink).
    { apply Qmult_lt_0_compat; [apply Qmult_lt_0_compat |]; assumption. }
    replace (List.length ((x, c) :: calls) + j)%nat
      with (List.length calls + S j)%nat by (cbn; lia).
    apply IH; try assumption; cbn [Position.quantity Position.entry_price].
    + apply round_nonneg. lra.
    + lra.
    + right. cbn [Ctx.pow]. split.
      * eapply Qle_trans; [| exact B1]. apply Qle_lteq. right. ring.
      * eapply Qle_trans; [exact B2 |]. apply Qle_lteq. right. ring.
Qed.

Lemma min_price_pos (p : Q) (ps : list Q) :
  0 < p -> Forall (fun x => 0 < x) ps -> 0 < min_price p ps.
Proof.
  intros Hp H. induction H as [| a ps Ha _ IH]; cbn; [exact Hp |].
  apply Q.min_glb_lt; assumption.
Qed.

(** C7.  In a sequence of valid [increase(qty, price)] calls from a Flat
    position every call succeeds.  It sets the entry price to
    [(oldQty * oldEntry + qty * price) / (oldQty + qty)] and the quantity to
    [oldQty + qty], each operation rounded to 28 significant digits: the
    entry price is within the factors [shrink] and [grow] (four roundings)
    of the exact weighted average, and after [n] calls it lies between the
    smallest price of the calls times [shrink ^ n] and the largest times
    [grow ^ n]. *)
Theorem increase_in_context (pre : list (Q * Q)) (qty price : Q) :
  Forall valid_call pre -> 0 < qty -> 0 < price ->
  exists old new,
    Ctx.increases Position.init pre = Ok old
    /\ Ctx.increase old qty price = Ok new
    /\ Ctx.increases Position.init (pre ++ [(qty, price)]) = Ok new
    /\ Position.entry_price new =
         Ctx.round
           (Ctx.round
              (Ctx.round (Position.quantity old * Position.entry_price old)
               + Ctx.round (qty * price))
            / Ctx.round (Position.quantity old + qty))
    /\ Position.quantity new = Ctx.round (Position.quantity old + qty)
    /\ (Position.quantity old * Position.entry_price old + qty * price)
         / (Position.quantity old + qty) * Ctx.shrink
       <= Position.entry_price new
    /\ Position.entry_price new
       <= (Position.quantity old * Position.entry_price old + qty * price)
          / (Position.quantity old + qty) * Ctx.grow
    /\ min_price price (map snd pre)
         * Ctx.pow Ctx.shrink (S (List.length pre))
       <= Position.entry_price new
    /\ Position.entry_price new
       <= max_price price (map snd pre)
          * Ctx.pow Ctx.grow (S (List.length pre)).
Proof.
  intros Hv Hq Hp.
  set (lo := min_price price (map snd pre)).
  set (hi := max_price price (map snd pre)).
  destruct (min_price_le price (map snd pre)) as [Hlo1 Hlo2].
  destruct (max_price_ge price (map snd pre)) as [Hhi1 Hhi2].
  fold lo in Hlo1, Hlo2. fold hi in Hhi1, Hhi2.
  assert (Hlo : 0 < lo).
  { apply min_price_pos; [exact Hp |]. rewrite Forall_map.
    eapply Forall_impl; [| exact Hv]. intros c [_ H]. exact H. }
  assert (Hb : Forall (fun c => lo <= snd c /\ snd c <= hi) pre).
  { rewrite Forall_map in Hlo2, Hhi2. rewrite Forall_forall in *.
    intros c Hc. split; [apply Hlo2 | apply Hhi2]; exact Hc. }
  destruct (ctx_increases_bounds pre lo hi Hlo Hv Hb 0 Position.init)
    as (old & Ho & Hoq & Hoe & Hin).
  { cbn. lra. }
  { cbn. lra. }
  { left. cbn. lra. }
  rewrite Nat.add_0_r in Hin.
  exists old. eexists. split; [exact Ho |].
  split; [apply ctx_increase_ok; assumption |].
  split.
  { rewrite ctx_increases_app, Ho. cbn [bind Ctx.increases].
    rewrite ctx_increase_ok by assumption. reflexivity. }
  cbn [Position.entry_price Position.quantity].
  split; [reflexivity |]. split; [reflexivity |].
  destruct (ctx_average_error (Position.quantity old)
              (Position.entry_price old) qty price Hoq Hoe Hq Hp) as [E1 E2].
  split; [exact E1 |]. split; [exact E2 |].
  destruct (pow_shrink_bounds (List.length pre)) as [P1 P2].
  pose proof (pow_grow_bounds (List.length pre)) as P3.
  assert (L1 : lo * Ctx.pow Ctx.shrink (List.length pre) <= price) by nra.
  assert (L2 : price <= hi * Ctx.pow Ctx.grow (List.length pre)) by nra.
  destruct (ctx_average_bounds (Position.quantity old)
              (Position.entry_price old) qty price _ _ Hoq Hoe Hq Hp Hin L1 L2)
    as [B1 B2].
  cbn [Ctx.pow]. split.
  - eapply Qle_trans; [| exact B1]. apply Qle_lteq. right. ring.
  - eapply Qle_trans; [exact B2 |]. apply Qle_lteq. right. ring.
Qed.

(** C7 as stated fails on the bounds: the calls (1, 26750.5),
    (1E-22, 26750.5), (3, 26750.5) leave the entry price
    26750.49999999999999999999999, below the only price contributed, and
    the quantity 4.0000000000000000000001. *)
Lemma increase_below_min_price_counterexample :
  exists new,
    Ctx.increases Position.init
      [(1, 267505 # 10);
       (1 # 10000000000000000000000, 267505 # 10);
       (3, 267505 # 10)] = Ok new
    /\ Position.entry_price new
       == 2675049999999999999999999999 # 100000000000000000000000
    /\ Position.entry_price new
       < min_price (267505 # 10) [267505 # 10; 267505 # 10].
Proof.
  eexists. split; [vm_compute; reflexivity |].
  split; [reflexivity | reflexivity].
Qed.

Lemma increase_in_context_witness :
  exists old new,
    Ctx.increases Position.init [(1, 100); (3, 120)] = Ok old
    /\ Ctx.increase old 2 90 = Ok new
    /\ 90 * Ctx.pow Ctx.shrink 3 <= Position.entry_price new
    /\ Position.entry_price new <= 120 * Ctx.pow Ctx.grow 3.
Proof.
  destruct (increase_in_context [(1, 100); (3, 120)] 2 90)
    as (old & new & Ho & Hn & _ & _ & _ & _ & _ & B1 & B2).
  - repeat constructor; cbn; lra.
  - lra.
  - lra.
  - exists old, new. split; [exact Ho |]. split; [exact Hn |].
    split; [exact B1 | exact B2].
Defined.

(** * The paths of [process_orders] in the context *)

Ltac ctx_open_path lev pos lev' pos' E :=
  unfold Ctx.process_order;
  destruct (Server.set_leverage _) as [lev' pos'] eqn:E;
  cbn [fst snd] in lev, pos; subst lev pos;
  apply set_leverage_inv in E; destruct E as (-> & E).

Lemma ctx_process_order_open_reject (s : Server.t) (o : Order.t) (price0 : Q)
      (orders' : list Order.t) :
  let lev := fst (Server.set_leverage s) in
  let pos := snd (Server.set_leverage s) in
  let price := Server.adjust_price o price0 in
  let side := upper (Order.side o) in
  let notional := Ctx.round (Ctx.mul (Order.quantity o) price / inject_Z lev) in
  lev <> 0%Z ->
  Server.unit s <= notional ->
  (String.eqb side "BUY" && Server.in_0_1 (Position.side pos))
  || (String.eqb side "SELL" && Server.in_m1_0 (Position.side pos)) = true ->
  Server.balance s
    < Ctx.add notional
        (Ctx.mul (Ctx.mul (Order.quantity o) price) (Server.fee_rate s)) ->
  list_remove o (Server.db_orders s) = Ok orders' ->
  Ctx.process_order s o price0 =
    Ok (false, Server.mk (Server.balance s) pos (Server.fee_rate s)
                 (Server.unit s) (Server.db_leverage s) orders').
Proof.
  intros lev pos price side notional Hlev Hn Hd Hb Hr.
  subst notional. ctx_open_path lev pos lev' pos' E.
  fold price side.
  rewrite !ctx_div_ok by now apply inject_Z_nonzero. cbn [bind].
  rewrite (proj2 (Qltb_false_iff _ _) Hn), Hd.
  rewrite (proj2 (Qle_bool_false_iff _ _) Hb), Hr. reflexivity.
Qed.

Lemma ctx_process_order_open_ok (s : Server.t) (o : Order.t) (price0 : Q)
      (orders' : list Order.t) :
  let lev := fst (Server.set_leverage s) in
  let pos := snd (Server.set_leverage s) in
  let price := Server.adjust_price o price0 in
  let side := upper (Order.side o) in
  let notional := Ctx.round (Ctx.mul (Order.quantity o) price / inject_Z lev) in
  let cost := Ctx.add notional
                (Ctx.mul (Ctx.mul (Order.quantity o) price)
                   (Server.fee_rate s)) in
  lev <> 0%Z ->
  Server.unit s <= notional ->
  (String.eqb side "BUY" && Server.in_0_1 (Position.side pos))
  || (String.eqb side "SELL" && Server.in_m1_0 (Position.side pos)) = true ->
  cost <= Server.balance s ->
  0 < Order.quantity o -> 0 < price -> 0 <= Position.quantity pos ->
  list_remove o (Server.db_orders s) = Ok orders' ->
  Ctx.process_order s o price0 =
    Ok (true,
        Server.mk (Ctx.sub (Server.balance s) cost)
          (Position.mk (Server.order_side_value side)
             (Ctx.round (Position.quantity pos + Order.quantity o))
             (Ctx.round
                (Ctx.round
                   (Ctx.round (Position.quantity pos * Position.entry_price pos)
                    + Ctx.round (Order.quantity o * price))
                 / Ctx.round (Position.quantity pos + Order.quantity o)))
             (Position.leverage pos))
          (Server.fee_rate s) (Server.unit s) (Server.db_leverage s) orders').
Proof.
  intros lev pos price side notional cost Hlev Hn Hd Hb Hq Hp Hpq Hr.
  subst cost notional. ctx_open_path lev pos lev' pos' E.
  fold price side.
  rewrite !ctx_div_ok by now apply inject_Z_nonzero. cbn [bind].
  rewrite (proj2 (Qltb_false_iff _ _) Hn), Hd.
  rewrite (proj2 (Qle_bool_iff _ _) Hb).
  rewrite ctx_increase_ok by assumption. cbn [bind]. rewrite Hr. reflexivity.
Qed.

Lemma ctx_process_order_decrease_ok (s : Server.t) (o : Order.t) (price0 : Q)
      (orders' : list Order.t) :
  let lev := fst (Server.set_leverage s) in
  let pos := snd (Server.set_leverage s) in
  let price := Server.adjust_price o price0 in
  let side := upper (Order.side o) in
  let qty := Order.quantity o in
  let initial := Ctx.mul qty (Position.entry_price pos) in
  let pnl := Ctx.mul (Ctx.mul (inject_Z (Position.side pos)) qty)
                     (Ctx.sub price (Position.entry_price pos)) in
  lev <> 0%Z ->
  Server.unit s <= Ctx.round (Ctx.mul qty price / inject_Z lev) ->
  (String.eqb side "BUY" && Server.in_0_1 (Position.side pos))
  || (String.eqb side "SELL" && Server.in_m1_0 (Position.side pos)) = false ->
  qty <= Position.quantity pos ->
  0 < qty -> 0 < price ->
  list_remove o (Server.db_orders s) = Ok orders' ->
  Ctx.process_order s o price0 =
    Ok (true,
        Server.mk
          (Ctx.add (Server.balance s)
             (Ctx.sub (Ctx.add (Ctx.round (initial / inject_Z lev)) pnl)
                (Ctx.mul (Ctx.add initial pnl) (Server.fee_rate s))))
          (if Qeq_bool (Ctx.sub (Position.quantity pos) qty) 0
           then Position.mk 0 (Ctx.sub (Position.quantity pos) qty) 0
                  (Position.leverage pos)
           else Position.mk (Position.side pos)
                  (Ctx.sub (Position.quantity pos) qty)
                  (Position.entry_price pos) (Position.leverage pos))
          (Server.fee_rate s) (Server.unit s) (Server.db_leverage s) orders').
Proof.
  intros lev pos price side qty initial pnl Hlev Hn Hd Hle Hq Hp Hr.
  subst initial pnl. ctx_open_path lev pos lev' pos' E.
  fold price side qty.
  rewrite !ctx_div_ok by now apply inject_Z_nonzero. cbn [bind].
  rewrite (proj2 (Qltb_false_iff _ _) Hn), Hd.
  rewrite (proj2 (Qle_bool_iff _ _) Hle).
  rewrite (ctx_decrease_ok pos' qty price Hq Hle Hp). cbn [bind].
  rewrite ctx_div_ok by now apply inject_Z_nonzero. cbn [bind].
  rewrite Hr. reflexivity.
Qed.

(** * Round trip *)

(** C9.  From a Flat position with leverage 1, fee rate 0 and
    [unit <= 100]: processing a Buy of 1 at execution price 100 and then a
    Sell of 1 at execution price 100 ends with a Flat position (quantity 0,
    entry price 0) and an empty queue.  With a balance below 100 both
    orders are rejected and the balance is untouched.  With a balance of at
    least 100 both are filled and the balance ends at
    [(balance - 100) + 100] as the context computes it, each operation
    rounded to 28 significant digits: this is the starting balance when
    the balance and [balance - 100] have at most 28 digits. *)
Theorem round_trip_in_context (s : Server.t) (o1 o2 : Order.t) :
  pos_inv (Server.position s) ->
  Position.side (Server.position s) = 0%Z ->
  Server.db_leverage s = 1%Z ->
  Server.fee_rate s == 0 ->
  Server.unit s <= 100 ->
  Server.db_orders s = [o1; o2] ->
  upper (Order.side o1) = "BUY"%string -> Order.quantity o1 == 1 ->
  Float.eligible 100 o1 = true -> Server.adjust_price o1 100 == 100 ->
  upper (Order.side o2) = "SELL"%string -> Order.quantity o2 == 1 ->
  Float.eligible 100 o2 = true -> Server.adjust_price o2 100 == 100 ->
  exists r1 s1 r2 s2,
    Ctx.process_orders s 100 = Ok (Some r1, s1)
    /\ Ctx.process_orders s1 100 = Ok (Some r2, s2)
    /\ (Server.balance s < 100 ->
        r1 = false /\ r2 = false /\ Server.balance s2 = Server.balance s)
    /\ (100 <= Server.balance s ->
        r1 = true /\ r2 = true
        /\ Server.balance s2
           == Ctx.round (Ctx.round (Server.balance s - 100) + 100))
    /\ (Ctx.exact (Server.balance s) -> Ctx.exact (Server.balance s - 100) ->
        Server.balance s2 == Server.balance s)
    /\ Position.side (Server.position s2) = 0%Z
    /\ Position.quantity (Server.position s2) == 0
    /\ Position.entry_price (Server.position s2) == 0
    /\ Server.db_orders s2 = [].
Proof.
  intros Hinv Hflat Hlev Hfee Hunit Hq Hs1 Hq1 He1 A1 Hs2 Hq2 He2 A2.
  destruct Hinv as (_ & _ & _ & Hqs & Hse).
  pose proof (proj2 Hqs Hflat) as Hq0. pose proof (proj1 Hse Hflat) as He0.
  pose proof (set_leverage_inv s _ _ (surjective_pairing _))
    as (L0 & L1 & L2 & L3 & L4).
  set (lev := fst (Server.set_leverage s)) in *.
  set (pos := snd (Server.set_leverage s)) in *.
  rewrite Hflat in L1, L4. rewrite Z.eqb_refl, Hlev in L4. rewrite L4 in L0.
  assert (C1 : Float.check_orders (Server.db_orders s) 100
               = o1 :: Float.check_orders [o2] 100)
    by (rewrite Hq; cbn; rewrite He1; reflexivity).
  assert (R1 : list_remove o1 (Server.db_orders s) = Ok [o2])
    by (rewrite Hq; apply list_remove_head).
  assert (D1 : (String.eqb (upper (Order.side o1)) "BUY"
                && Server.in_0_1 (Position.side pos))
               || (String.eqb (upper (Order.side o1)) "SELL"
                   && Server.in_m1_0 (Position.side pos)) = true)
    by (rewrite Hs1, L1; reflexivity).
  assert (V1 : Ctx.round (Ctx.mul (Order.quantity o1)
                            (Server.adjust_price o1 100) / inject_Z lev)
               == 100).
  { rewrite A1, L0, Hq1. vm_compute. reflexivity. }
  assert (N1 : Server.unit s
               <= Ctx.round (Ctx.mul (Order.quantity o1)
                               (Server.adjust_price o1 100) / inject_Z lev))
    by (rewrite V1; exact Hunit).
  assert (Lnz : lev <> 0%Z) by (rewrite L0; lia).
  assert (Hq1' : 0 < Order.quantity o1) by (rewrite Hq1; reflexivity).
  assert (Hq2' : 0 < Order.quantity o2) by (rewrite Hq2; reflexivity).
  assert (Hp1 : 0 < Server.adjust_price o1 100) by (rewrite A1; reflexivity).
  assert (Hp2 : 0 < Server.adjust_price o2 100) by (rewrite A2; reflexivity).
  assert (Hpq : 0 <= Position.quantity pos) by (rewrite L2, Hq0; discriminate).
  set (cost := Ctx.add
                 (Ctx.round (Ctx.mul (Order.quantity o1)
                               (Server.adjust_price o1 100) / inject_Z lev))
                 (Ctx.mul (Ctx.mul (Order.quantity o1)
                             (Server.adjust_price o1 100))
                    (Server.fee_rate s))).
  assert (Hcost : cost == 100).
  { unfold cost. rewrite V1, A1, Hq1, Hfee. vm_compute. reflexivity. }
  assert (C2 : forall b p, Float.check_orders
             (Server.db_orders (Server.mk b p (Server.fee_rate s)
                (Server.unit s) (Server.db_leverage s) [o2])) 100 = [o2])
    by (intros; cbn; rewrite He2; reflexivity).
  unfold Ctx.process_orders at 1. rewrite C1.
  destruct (Qlt_le_dec (Server.balance s) cost) as [Hb | Hb].
  - (* the Buy is rejected, and so is the Sell *)
    rewrite (ctx_process_order_open_reject s o1 100 [o2] Lnz N1 D1 Hb R1).
    cbn [bind]. fold pos.
    set (s1 := Server.mk (Server.balance s) pos (Server.fee_rate s)
                 (Server.unit s) (Server.db_leverage s) [o2]).
    pose proof (set_leverage_inv s1 _ _ (surjective_pairing _))
      as (M0 & M1 & M2 & M3 & M4).
    cbn [s1 Server.position Server.db_leverage] in M1, M2, M3, M4.
    rewrite L1, Z.eqb_refl, Hlev in M4. rewrite M4 in M0.
    assert (D2 : (String.eqb (upper (Order.side o2)) "BUY"
                  && Server.in_0_1 (Position.side (snd (Server.set_leverage s1))))
                 || (String.eqb (upper (Order.side o2)) "SELL"
                     && Server.in_m1_0
                          (Position.side (snd (Server.set_leverage s1)))) = true)
      by (rewrite Hs2, M1, L1; reflexivity).
    assert (V2 : Ctx.round (Ctx.mul (Order.quantity o2)
                              (Server.adjust_price o2 100)
                            / inject_Z (fst (Server.set_leverage s1)))
                 == 100).
    { rewrite A2, M0, Hq2. vm_compute. reflexivity. }
    assert (N2 : Server.unit s1
                 <= Ctx.round (Ctx.mul (Order.quantity o2)
                                 (Server.adjust_price o2 100)
                               / inject_Z (fst (Server.set_leverage s1))))
      by (rewrite V2; exact Hunit).
    assert (Hb2 : Server.balance s1
                  < Ctx.add
                      (Ctx.round (Ctx.mul (Order.quantity o2)
                                    (Server.adjust_price o2 100)
                                  / inject_Z (fst (Server.set_leverage s1))))
                      (Ctx.mul (Ctx.mul (Order.quantity o2)
                                  (Server.adjust_price o2 100))
                         (Server.fee_rate s1))).
    { rewrite V2, A2, Hq2. cbn [s1 Server.fee_rate Server.balance].
      rewrite Hfee. rewrite Hcost in Hb.
      eapply Qlt_le_trans; [exact Hb |]. vm_compute. discriminate. }
    assert (Mnz : fst (Server.set_leverage s1) <> 0%Z) by (rewrite M0; lia).
    exists false, s1. do 2 eexists. split; [reflexivity |].
    unfold Ctx.process_orders. unfold s1 at 1. rewrite C2. fold s1.
    rewrite (ctx_process_order_open_reject s1 o2 100 [] Mnz N2 D2 Hb2
               (list_remove_head o2 [])).
    cbn [bind]. split; [reflexivity |].
    cbn [Server.balance Server.position Server.db_orders s1].
    rewrite M1, M2, M3, L1, L2, L3. rewrite Hcost in Hb.
    repeat split; try assumption; try reflexivity; intros; exfalso; lra.
  - (* the Buy opens a Long of 1 at 100, the Sell closes it *)
    rewrite (ctx_process_order_open_ok s o1 100 [o2] Lnz N1 D1 Hb Hq1' Hp1 Hpq R1).
    cbn [bind]. fold pos lev cost. rewrite Hs1.
    change (Server.order_side_value "BUY") with 1%Z.
    set (pos1 := Position.mk 1 _ _ _).
    set (s1 := Server.mk (Ctx.sub (Server.balance s) cost) pos1
                 (Server.fee_rate s) (Server.unit s) (Server.db_leverage s)
                 [o2]).
    pose proof (set_leverage_inv s1 _ _ (surjective_pairing _))
      as (M0 & M1 & M2 & M3 & M4).
    cbn [s1 pos1 Server.position Server.db_leverage Position.side
         Position.quantity Position.entry_price Position.leverage Z.eqb]
      in M1, M2, M3, M4.
    rewrite L4 in M4. rewrite M4 in M0.
    set (lev1 := fst (Server.set_leverage s1)) in *.
    set (pos1' := snd (Server.set_leverage s1)) in *.
    assert (Q1 : Position.quantity pos1' == 1).
    { rewrite M2, L2, Hq0, Hq1. vm_compute. reflexivity. }
    assert (E1 : Position.entry_price pos1' == 100).
    { rewrite M3, L2, L3, Hq0, He0, Hq1, A1. vm_compute. reflexivity. }
    assert (D2 : (String.eqb (upper (Order.side o2)) "BUY"
                  && Server.in_0_1 (Position.side pos1'))
                 || (String.eqb (upper (Order.side o2)) "SELL"
                     && Server.in_m1_0 (Position.side pos1')) = false)
      by (rewrite Hs2, M1; reflexivity).
    assert (V2 : Ctx.round (Ctx.mul (Order.quantity o2)
                              (Server.adjust_price o2 100) / inject_Z lev1)
                 == 100).
    { rewrite A2, M0, Hq2. vm_compute. reflexivity. }
    assert (N2 : Server.unit s1
                 <= Ctx.round (Ctx.mul (Order.quantity o2)
                                 (Server.adjust_price o2 100) / inject_Z lev1))
      by (rewrite V2; exact Hunit).
    assert (Hle : Order.quantity o2 <= Position.quantity pos1')
      by (rewrite Q1, Hq2; discriminate).
    assert (Mnz : lev1 <> 0%Z) by (rewrite M0; lia).
    exists true, s1. do 2 eexists. split; [reflexivity |].
    unfold Ctx.process_orders. unfold s1 at 1. rewrite C2. fold s1.
    rewrite (ctx_process_order_decrease_ok s1 o2 100 [] Mnz N2 D2 Hle Hq2' Hp2
               (list_remove_head o2 [])).
    cbn [bind]. fold lev1 pos1'. split; [reflexivity |].
    assert (Z2 : Ctx.sub (Position.quantity pos1') (Order.quantity o2) == 0).
    { rewrite Q1, Hq2. vm_compute. reflexivity. }
    rewrite (proj2 (Qeq_bool_iff _ _) Z2).
    cbn [Server.balance Server.position Server.db_orders s1
         Position.side Position.quantity Position.entry_price].
    assert (B2 : Ctx.add (Ctx.sub (Server.balance s) cost)
                   (Ctx.sub
                      (Ctx.add
                         (Ctx.round
                            (Ctx.mul (Order.quantity o2)
                               (Position.entry_price pos1') / inject_Z lev1))
                         (Ctx.mul
                            (Ctx.mul (inject_Z (Position.side pos1'))
                               (Order.quantity o2))
                            (Ctx.sub (Server.adjust_price o2 100)
                               (Position.entry_price pos1'))))
                      (Ctx.mul
                         (Ctx.add
                            (Ctx.mul (Order.quantity o2)
                               (Position.entry_price pos1'))
                            (Ctx.mul
                               (Ctx.mul (inject_Z (Position.side pos1'))
                                  (Order.quantity o2))
                               (Ctx.sub (Server.adjust_price o2 100)
                                  (Position.entry_price pos1'))))
                         (Server.fee_rate s)))
                 == Ctx.round (Ctx.round (Server.balance s - 100) + 100)).
    { rewrite Hcost, E1, M0, M1, Hq2, A2, Hfee.
      unfold Ctx.add at 1. unfold Ctx.sub at 1.
      apply round_proper. apply Qplus_comp; [reflexivity |].
      vm_compute. reflexivity. }
    rewrite Hcost in Hb.
    split; [intros; exfalso; lra |].
    split; [intros _; split; [reflexivity |]; split; [reflexivity | exact B2] |].
    split.
    { intros X1 X2. eapply Qeq_trans; [exact B2 |].
      rewrite (round_exact _ X2).
      assert (E : Server.balance s - 100 + 100 == Server.balance s) by ring.
      rewrite E. exact (round_exact _ X1). }
    repeat split; try reflexivity. exact Z2.
Qed.

(** C9 as stated fails for a balance of more than 28 digits: from
    10000000000000000000000000001 the Buy leaves
    9999999999999999999999999901 and the Sell brings the balance to
    1.000000000000000000000000000E+28, one less than the start. *)
Lemma round_trip_large_balance_counterexample :
  let s := Server.mk 10000000000000000000000000001 Position.init 0 1 1
             [Order.mk "BUY" 1 None 0; Order.mk "SELL" 1 None 1] in
  exists s1 s2,
    Ctx.process_orders s 100 = Ok (Some true, s1)
    /\ Ctx.process_orders s1 100 = Ok (Some true, s2)
    /\ Server.balance s1 == 9999999999999999999999999901
    /\ Server.balance s2 == 10000000000000000000000000000
    /\ ~ Server.balance s2 == Server.balance s.
Proof.
  cbn zeta. do 2 eexists.
  split; [vm_compute; reflexivity |].
  split; [vm_compute; reflexivity |].
  cbn [Server.balance].
  split; [reflexivity |]. split; [reflexivity | discriminate].
Qed.

Lemma round_trip_in_context_witness :
  let s := Server.mk 1000 Position.init 0 1 1
             [Order.mk "BUY" 1 None 0; Order.mk "SELL" 1 (Some 99) 1] in
  exists r1 s1 r2 s2,
    Ctx.process_orders s 100 = Ok (Some r1, s1)
    /\ Ctx.process_orders s1 100 = Ok (Some r2, s2)
    /\ Server.balance s2 == Server.balance s
    /\ Position.side (Server.position s2) = 0%Z
    /\ Position.quantity (Server.position s2) == 0
    /\ Position.entry_price (Server.position s2) == 0
    /\ Server.db_orders s2 = [].
Proof.
  cbn zeta.
  destruct (round_trip_in_context
              (Server.mk 1000 Position.init 0 1 1
                 [Order.mk "BUY" 1 None 0; Order.mk "SELL" 1 (Some 99) 1])
              (Order.mk "BUY" 1 None 0) (Order.mk "SELL" 1 (Some 99) 1))
    as (r1 & s1 & r2 & s2 & H1 & H2 & _ & _ & Hb & Hs & Hq & He & Ho);
    try reflexivity.
  - exact pos_inv_init.
  - cbn. discriminate.
  - exists r1, s1, r2, s2. repeat split; try assumption.
    apply Hb; cbn [Server.balance].
    + exists 1000%Z, 0%Z. split; reflexivity.
    + exists 900%Z, 0%Z. split; reflexivity.
Defined.

(** * The queue check and the float of a limit price *)

(** For a market order and for a limit price that is a binary64 number,
    such as a whole number, the test is the one of the eligibility rule. *)
Lemma float_eligible_spec (price : Q) (o : Order.t) :
  (forall limit, Order.price o = Some limit -> Float.of_decimal limit == limit) ->
  (Float.eligible price o = true <-> eligible_spec price o).
Proof.
  intros Hx. unfold Float.eligible, eligible_spec.
  destruct (Order.price o) as [limit |]; [| tauto].
  specialize (Hx limit eq_refl).
  rewrite orb_true_iff, !andb_true_iff, !String.eqb_eq, !Qle_bool_iff, Hx.
  reflexivity.
Qed.

(** C8.  [check_orders] compares the tick price with
    [Decimal(order["price"])], the binary expansion of the float, and not
    with the limit price as written.  A Buy with limit 100.1 is not
    selected at the tick 100.1, because the float of 100.1 is
    100.099999999999994315658113919198513031005859375, and a Sell with
    limit 99.9 is not selected at the tick 99.9, because the float of 99.9
    is 99.900000000000005684341886080801486968994140625; both are eligible
    as the eligibility rule is worded, and line 238 of [process_orders]
    reads the same prices as 100.1 and 99.9. *)
Theorem check_orders_misses_limit_equal_to_tick :
  let buy := Order.mk "BUY" 1 (Some (1001 # 10)) 0 in
  let sell := Order.mk "SELL" 1 (Some (999 # 10)) 1 in
  (eligible_spec (1001 # 10) buy
   /\ Float.of_decimal (1001 # 10) == 3521955646092083 # 35184372088832
   /\ Float.of_decimal (1001 # 10) < 1001 # 10
   /\ Float.check_orders [buy] (1001 # 10) = []
   /\ Server.adjust_price buy (1002 # 10) = 1001 # 10)
  /\ (eligible_spec (999 # 10) sell
      /\ Float.of_decimal (999 # 10) == 3514918771674317 # 35184372088832
      /\ 999 # 10 < Float.of_decimal (999 # 10)
      /\ Float.check_orders [sell] (999 # 10) = []
      /\ Server.adjust_price sell (998 # 10) = 999 # 10).
Proof.
  cbn zeta. split.
  - split; [left; split; [reflexivity | apply Qle_refl] |].
    split; [vm_compute; reflexivity |].
    split; [vm_compute; reflexivity |].
    split; vm_compute; reflexivity.
  - split; [right; split; [reflexivity | apply Qle_refl] |].
    split; [vm_compute; reflexivity |].
    split; [vm_compute; reflexivity |].
    split; vm_compute; reflexivity.
Qed.
